(** * Brainrot: expression / gesture classification, temporal stabilisation
      and the meme selection pool

    A shallow embedding of [src/lib/gestures.ts], [src/lib/detection.ts],
    [src/lib/config.ts] and [src/lib/memePool.ts].

    - JavaScript numbers are IEEE 754 binary64 values: landmark coordinates,
      thresholds and confidences are primitive [float]s, so every rule can be
      evaluated on concrete landmark sets.
    - [Date.now()] is an input of [analyze]: a millisecond timestamp in [Z].
    - [Math.random()] is an input of [getRandomMeme]: a draw is a natural
      number [r], and [Math.floor(Math.random() * n)] is [r mod n].
    - Object state (the private fields of the detector classes, the
      module-level [memePool] and [recentMemes]) is passed explicitly. *)

From Stdlib Require Import ZArith Floats.
From stdpp Require Import gmap strings list.

#[local] Set Warnings "-inexact-float".
#[local] Open Scope Z_scope.

(** ** JavaScript number primitives *)

Module JS.

(** [a < b] and [a > b] on numbers (false as soon as one side is NaN). *)
Definition lt (a b : float) : bool := PrimFloat.ltb a b.
Definition gt (a b : float) : bool := PrimFloat.ltb b a.

Definition Math_abs (a : float) : float := PrimFloat.abs a.
Definition Math_sqrt (a : float) : float := PrimFloat.sqrt a.

(** [Math.pow(a, 2)]. *)
Definition Math_pow2 (a : float) : float := PrimFloat.mul a a.

(** [Math.min(a, b)]: NaN if either argument is NaN, and -0 is below +0. *)
Definition Math_min (a b : float) : float :=
    if PrimFloat.is_nan a || PrimFloat.is_nan b then PrimFloat.nan
    else if PrimFloat.ltb a b then a
    else if PrimFloat.ltb b a then b
    else if PrimFloat.get_sign a then a else b.

(** [Math.max(a, b)]: NaN if either argument is NaN, and +0 is above -0. *)
Definition Math_max (a b : float) : float :=
    if PrimFloat.is_nan a || PrimFloat.is_nan b then PrimFloat.nan
    else if PrimFloat.ltb a b then b
    else if PrimFloat.ltb b a then a
    else if PrimFloat.get_sign a then b else a.

End JS.

(** ** [config.ts] *)

Module CONFIG.

Module thresholds.
Definition eyeOpening : float := 0.03.
Definition mouthOpen : float := 0.025.
Definition squinting : float := 0.018.
Definition smile : float := 0.012.
Definition browRaise : float := 0.01.
Definition winkRatio : float := 0.6.
Definition puckerRatio : float := 0.25.
Definition sleepyThreshold : float := 0.018.
End thresholds.

Module transitions.
Definition holdTime : Z := 300.
Definition debounce : Z := 500.
Definition crossfadeDuration : Z := 300.
Definition historyLength : nat := 10.
End transitions.

End CONFIG.

(** [interface Landmark { x: number; y: number; z?: number }] *)
Record Landmark := mkLandmark { x : float; y : float; z : option float }.

(** ** The temporal stabiliser

    The second half of [analyze] is the same code in [GestureDetector] and in
    [ExpressionDetector], over [GestureType] and [ExpressionType]; it is
    written once here over a category type [C].  The fields are
    [gestureHistory] / [expressionHistory], [lastGestureTime] /
    [lastExpressionTime], [currentGesture] / [currentExpression],
    [holdStartTime] and [pendingGesture] / [pendingExpression]. *)

Module Stabilizer.
Section Stabilizer.

Context {C : Type} `{EqDecision C}.

Record state := mkState {
    history : list C;
    lastTime : Z;
    current : C;
    holdStartTime : Z;
    pending : option C;
  }.

(** A newly constructed detector (the field initialisers of the class). *)
Definition fresh (default : C) : state :=
    {| history := []; lastTime := 0; current := default;
       holdStartTime := 0; pending := None |}.

(** [reset()] assigns the five fields. *)
Definition reset (default : C) (st : state) : state :=
    {| history := []; lastTime := 0; current := default;
       holdStartTime := 0; pending := None |}.

(** [history.push(raw); if (history.length > historyLength) history.shift()] *)
Definition pushHistory (raw : C) (h : list C) : list C :=
    let h' := h ++ [raw] in
    if (CONFIG.transitions.historyLength <? length h')%nat then tail h' else h'.

(** [counts[g] = (counts[g] || 0) + 1] on the object [counts]: an existing
      key keeps its place, a new key is added after the others (the keys are
      category names, which enumerate in insertion order). *)
Fixpoint bump (g : C) (counts : list (C * nat)) : list (C * nat) :=
    match counts with
    | [] => [(g, 1%nat)]
    | (k, n) :: rest =>
        if decide (k = g) then (k, S n) :: rest else (k, n) :: bump g rest
    end.

(** [history.forEach(g => ...)] starting from [counts = {}]. *)
Definition tally (h : list C) : list (C * nat) :=
    fold_left (fun counts g => bump g counts) h [].

(** [.sort((a, b) => b[1] - a[1])]: [Array.prototype.sort] is stable, so
      entries of equal count keep the order of [Object.entries]. *)
Fixpoint insertDesc (e : C * nat) (l : list (C * nat)) : list (C * nat) :=
    match l with
    | [] => [e]
    | a :: rest =>
        if (snd a <=? snd e)%nat then e :: a :: rest else a :: insertDesc e rest
    end.

Definition sortDesc (entries : list (C * nat)) : list (C * nat) :=
    foldr insertDesc [] entries.

(** [Object.entries(counts).sort(...)[0][0]]; the history is not empty when
      this is evaluated, [None] stands for the [TypeError] of [undefined[0]]. *)
Definition smoothed (h : list C) : option C :=
    match sortDesc (tally h) with
    | (g, _) :: _ => Some g
    | [] => None
    end.

(** The hold / debounce transition ("Check if gesture is changing"). *)
Definition transition (now : Z) (sm : C) (st : state) : state :=
    if decide (sm <> current st) then
      if decide (pending st <> Some sm) then
        {| history := history st; lastTime := lastTime st;
           current := current st; holdStartTime := now; pending := Some sm |}
      else if (CONFIG.transitions.holdTime <=? now - holdStartTime st) then
        if (CONFIG.transitions.debounce <=? now - lastTime st) then
          {| history := history st; lastTime := now; current := sm;
             holdStartTime := holdStartTime st; pending := None |}
        else st
      else st
    else
      {| history := history st; lastTime := lastTime st;
         current := current st; holdStartTime := holdStartTime st;
         pending := None |}.

(** Everything [analyze] does to the fields once the raw category is known. *)
Definition stabilize (now : Z) (raw : C) (st : state) : state :=
    let h := pushHistory raw (history st) in
    let st1 := {| history := h; lastTime := lastTime st; current := current st;
                  holdStartTime := holdStartTime st; pending := pending st |} in
    match smoothed h with
    | Some sm => transition now sm st1
    | None => st1
    end.

(** *** Runs of the stabiliser

    A call of [analyze] at time [now] either returns before touching the
    fields (landmark set too short: [None]) or stabilises a raw category. *)
Definition advance (e : Z * option C) (st : state) : state :=
  match snd e with
  | Some raw => stabilize (fst e) raw st
  | None => st
  end.

Definition after (default : C) (events : list (Z * option C)) : state :=
  fold_left (fun st e => advance e st) events (fresh default).

(** [sts i] is the state before call [i] (after the first [i] calls) and
    [nows] lists the times of the calls.  Call [k] switches when it changes
    [current]. *)
Definition switchAt (sts : nat -> state) (k : nat) : Prop :=
  current (sts (S k)) <> current (sts k).

(** Every switch commits a category that became the pending candidate at an
    earlier call [j], stayed pending at every call since, and has been held
    for [holdTime]. *)
Definition HoldRespected (nows : list Z) (sts : nat -> state) : Prop :=
  forall k now, nows !! k = Some now -> switchAt sts k ->
    exists j nowj, (j < k)%nat /\ nows !! j = Some nowj /\
      pending (sts j) <> Some (current (sts (S k))) /\
      (forall i, (j < i <= k)%nat -> pending (sts i) = Some (current (sts (S k)))) /\
      holdStartTime (sts k) = nowj /\
      CONFIG.transitions.holdTime <= now - nowj.

(** Any two switches are at least [debounce] apart. *)
Definition DebounceRespected (nows : list Z) (sts : nat -> state) : Prop :=
  forall k' k now' now, (k' < k)%nat ->
    nows !! k' = Some now' -> nows !! k = Some now ->
    switchAt sts k' -> switchAt sts k ->
    CONFIG.transitions.debounce <= now - now'.

End Stabilizer.
#[global] Arguments state : clear implicits.
End Stabilizer.

(** ** [gestures.ts] *)

Inductive GestureType :=
  | middleFinger | thumbsUp | thumbsDown | peace
  | ok | rockOn | wave | fist | pointing | none.

#[global] Instance GestureType_eq_dec : EqDecision GestureType.
Proof. solve_decision. Defined.

Module HAND_LANDMARKS.
Definition WRIST : nat := 0.
Definition THUMB_CMC : nat := 1.
Definition THUMB_MCP : nat := 2.
Definition THUMB_IP : nat := 3.
Definition THUMB_TIP : nat := 4.
Definition INDEX_MCP : nat := 5.
Definition INDEX_PIP : nat := 6.
Definition INDEX_DIP : nat := 7.
Definition INDEX_TIP : nat := 8.
Definition MIDDLE_MCP : nat := 9.
Definition MIDDLE_PIP : nat := 10.
Definition MIDDLE_DIP : nat := 11.
Definition MIDDLE_TIP : nat := 12.
Definition RING_MCP : nat := 13.
Definition RING_PIP : nat := 14.
Definition RING_DIP : nat := 15.
Definition RING_TIP : nat := 16.
Definition PINKY_MCP : nat := 17.
Definition PINKY_PIP : nat := 18.
Definition PINKY_DIP : nat := 19.
Definition PINKY_TIP : nat := 20.
End HAND_LANDMARKS.

Module GestureDetector.
Import HAND_LANDMARKS.

Record GestureResult := mkGestureResult {
  gesture : GestureType;
  confidence : float;
}.

Definition isFingerExtended
      (landmarks : list Landmark) (tipIdx pipIdx mcpIdx : nat) : bool :=
    match landmarks !! tipIdx, landmarks !! pipIdx, landmarks !! mcpIdx with
    | Some tip, Some pip, Some mcp => JS.lt (y tip) (y pip - 0.02)%float
    | _, _, _ => false
    end.

(** [landmarks[INDEX_MCP].x] and [landmarks[PINKY_MCP].x] are read without
      a test; [analyze] only gets here with at least 21 landmarks, where both
      exist (lemma [palm_in_range]), so the last branch is never taken. *)
Definition isThumbExtended (landmarks : list Landmark) : bool :=
    match landmarks !! THUMB_TIP, landmarks !! THUMB_IP,
          landmarks !! THUMB_MCP, landmarks !! WRIST with
    | Some tip, Some ip, Some mcp, Some wrist =>
        match landmarks !! INDEX_MCP, landmarks !! PINKY_MCP with
        | Some indexMcp, Some pinkyMcp =>
            let palmCenterX := ((x indexMcp + x pinkyMcp) / 2)%float in
            JS.gt (JS.Math_abs (x tip - palmCenterX)%float)
                  (JS.Math_abs (x mcp - palmCenterX)%float * 1.2)%float
        | _, _ => false
        end
    | _, _, _, _ => false
    end.

Definition isThumbUp (landmarks : list Landmark) : bool :=
    match landmarks !! THUMB_TIP, landmarks !! THUMB_MCP, landmarks !! WRIST with
    | Some tip, Some mcp, Some wrist =>
        JS.lt (y tip) (y wrist - 0.1)%float && isThumbExtended landmarks
    | _, _, _ => false
    end.

Definition isThumbDown (landmarks : list Landmark) : bool :=
    match landmarks !! THUMB_TIP, landmarks !! WRIST with
    | Some tip, Some wrist =>
        JS.gt (y tip) (y wrist + 0.1)%float && isThumbExtended landmarks
    | _, _ => false
    end.

Record FingerStates := mkFingerStates {
    thumb : bool; index : bool; middle : bool; ring : bool; pinky : bool;
  }.

Definition getFingerStates (landmarks : list Landmark) : FingerStates :=
    {| thumb := isThumbExtended landmarks;
       index := isFingerExtended landmarks INDEX_TIP INDEX_PIP INDEX_MCP;
       middle := isFingerExtended landmarks MIDDLE_TIP MIDDLE_PIP MIDDLE_MCP;
       ring := isFingerExtended landmarks RING_TIP RING_PIP RING_MCP;
       pinky := isFingerExtended landmarks PINKY_TIP PINKY_PIP PINKY_MCP |}.

Definition detectMiddleFinger (landmarks : list Landmark) : option GestureResult :=
    let fingers := getFingerStates landmarks in
    if middle fingers && negb (index fingers) && negb (ring fingers)
       && negb (pinky fingers) && negb (thumb fingers)
    then Some {| gesture := middleFinger; confidence := 0.9 |}
    else None.

Definition detectPeace (landmarks : list Landmark) : option GestureResult :=
    let fingers := getFingerStates landmarks in
    if index fingers && middle fingers && negb (ring fingers) && negb (pinky fingers)
    then Some {| gesture := peace; confidence := 0.85 |}
    else None.

Definition detectThumbsUp (landmarks : list Landmark) : option GestureResult :=
    let fingers := getFingerStates landmarks in
    if isThumbUp landmarks && negb (index fingers) && negb (middle fingers)
       && negb (ring fingers) && negb (pinky fingers)
    then Some {| gesture := thumbsUp; confidence := 0.9 |}
    else None.

Definition detectThumbsDown (landmarks : list Landmark) : option GestureResult :=
    let fingers := getFingerStates landmarks in
    if isThumbDown landmarks && negb (index fingers) && negb (middle fingers)
       && negb (ring fingers) && negb (pinky fingers)
    then Some {| gesture := thumbsDown; confidence := 0.9 |}
    else None.

Definition detectOK (landmarks : list Landmark) : option GestureResult :=
    let fingers := getFingerStates landmarks in
    match landmarks !! THUMB_TIP, landmarks !! INDEX_TIP with
    | Some thumbTip, Some indexTip =>
        let distance :=
          JS.Math_sqrt (JS.Math_pow2 (x thumbTip - x indexTip)
                        + JS.Math_pow2 (y thumbTip - y indexTip))%float in
        if JS.lt distance 0.05 && middle fingers && ring fingers && pinky fingers
        then Some {| gesture := ok; confidence := 0.85 |}
        else None
    | _, _ => None
    end.

Definition detectRockOn (landmarks : list Landmark) : option GestureResult :=
    let fingers := getFingerStates landmarks in
    if index fingers && pinky fingers && negb (middle fingers) && negb (ring fingers)
    then Some {| gesture := rockOn; confidence := 0.85 |}
    else None.

Definition detectWave (landmarks : list Landmark) : option GestureResult :=
    let fingers := getFingerStates landmarks in
    if thumb fingers && index fingers && middle fingers
       && ring fingers && pinky fingers
    then Some {| gesture := wave; confidence := 0.8 |}
    else None.

Definition detectFist (landmarks : list Landmark) : option GestureResult :=
    let fingers := getFingerStates landmarks in
    if negb (thumb fingers) && negb (index fingers) && negb (middle fingers)
       && negb (ring fingers) && negb (pinky fingers)
    then Some {| gesture := fist; confidence := 0.8 |}
    else None.

Definition detectPointing (landmarks : list Landmark) : option GestureResult :=
    let fingers := getFingerStates landmarks in
    if index fingers && negb (middle fingers) && negb (ring fingers)
       && negb (pinky fingers)
    then Some {| gesture := pointing; confidence := 0.85 |}
    else None.

(** The rule table of [analyze], in the order of the array literal. *)
Definition rules : list (list Landmark -> option GestureResult) :=
    [ detectMiddleFinger; detectThumbsUp; detectThumbsDown; detectPeace;
      detectOK; detectRockOn; detectPointing; detectWave; detectFist ].

(** [for (const detect of detectors) { const result = detect(); if (result)
      { rawGesture = ...; rawConfidence = ...; break; } }] starting from
      [rawGesture = 'none'], [rawConfidence = 0]. *)
Fixpoint firstMatch (detectors : list (unit -> option GestureResult))
      : GestureType * float :=
    match detectors with
    | [] => (none, 0%float)
    | detect :: rest =>
        match detect tt with
        | Some result => (gesture result, confidence result)
        | None => firstMatch rest
        end
    end.

(** The raw per-frame classification over a rule table. *)
Definition classifyWith
      (table : list (list Landmark -> option GestureResult))
      (landmarks : list Landmark) : GestureType * float :=
    firstMatch (map (fun rule (_ : unit) => rule landmarks) table).

Abbreviation state := (Stabilizer.state GestureType).

(** [analyze], with the rule table as a parameter. *)
Definition analyzeWith
      (table : list (list Landmark -> option GestureResult))
      (now : Z) (landmarks : list Landmark) (st : state)
      : GestureResult * state :=
    if (length landmarks <? 21)%nat then
      ({| gesture := none; confidence := 0 |}, st)
    else
      let '(rawGesture, rawConfidence) := classifyWith table landmarks in
      let st' := Stabilizer.stabilize now rawGesture st in
      ({| gesture := Stabilizer.current st'; confidence := rawConfidence |}, st').

Definition classify := classifyWith rules.
Definition analyze := analyzeWith rules.

Definition fresh : state := Stabilizer.fresh none.
Definition reset (st : state) : state := Stabilizer.reset none st.

(** *** Sequences of calls *)

(** A call: the value of [Date.now()] and the landmark set. *)
Definition call : Type := Z * list Landmark.

Definition step (c : call) (st : state) : GestureResult * state :=
  analyze (fst c) (snd c) st.

(** The results of a sequence of calls on the detector in state [st]. *)
Fixpoint results (calls : list call) (st : state) : list GestureResult :=
  match calls with
  | [] => []
  | c :: rest => fst (step c st) :: results rest (snd (step c st))
  end.

Definition stateAfter (calls : list call) (st : state) : state :=
  fold_left (fun st c => snd (step c st)) calls st.

(** The state of a new detector after the first [i] calls. *)
Definition stateAt (calls : list call) (i : nat) : state :=
  stateAfter (take i calls) fresh.

(** What a call contributes to the stabiliser. *)
Definition event (c : call) : Z * option GestureType :=
  (fst c, if (length (snd c) <? 21)%nat then None
          else Some (fst (classify (snd c)))).

(** *** The priority order, by category

    [priority] is the order in which the rules are to be tried and [ruleOf]
    the rule that decides each category; [rules] above is the table that
    [analyze] builds. *)

Definition priority : list GestureType :=
  [ middleFinger; thumbsUp; thumbsDown; peace; ok; rockOn; pointing; wave; fist ].

Definition ruleOf (g : GestureType) : list Landmark -> option GestureResult :=
  match g with
  | middleFinger => detectMiddleFinger
  | thumbsUp => detectThumbsUp
  | thumbsDown => detectThumbsDown
  | peace => detectPeace
  | ok => detectOK
  | rockOn => detectRockOn
  | pointing => detectPointing
  | wave => detectWave
  | fist => detectFist
  | none => fun _ => None
  end.

(** The categories whose rule holds on [landmarks], in priority order. *)
Definition matching (landmarks : list Landmark) : list GestureType :=
  filter (fun g => is_Some (ruleOf g landmarks)) priority.

(** [a] comes before [b] in the priority order. *)
Definition before (a b : GestureType) : Prop :=
  exists i j, priority !! i = Some a /\ priority !! j = Some b /\ (i < j)%nat.

End GestureDetector.

(** ** [detection.ts] *)

Inductive ExpressionType :=
  | shock | scream | tongue | happy | sad
  | wink | glare | suspicious | sleepy
  | eyebrow | confused | pout | disgust | kissy | neutral.

#[global] Instance ExpressionType_eq_dec : EqDecision ExpressionType.
Proof. solve_decision. Defined.

Module LANDMARKS.
Definition LEFT_EYE_TOP : nat := 159.
Definition LEFT_EYE_BOTTOM : nat := 145.
Definition RIGHT_EYE_TOP : nat := 386.
Definition RIGHT_EYE_BOTTOM : nat := 374.
Definition LEFT_BROW_TOP : nat := 63.
Definition RIGHT_BROW_TOP : nat := 293.
Definition UPPER_LIP_TOP : nat := 13.
Definition LOWER_LIP_BOTTOM : nat := 14.
Definition MOUTH_LEFT : nat := 61.
Definition MOUTH_RIGHT : nat := 291.
Definition LOWER_LIP_CENTER : nat := 17.
Definition NOSE_TIP : nat := 4.
Definition CHIN : nat := 152.
End LANDMARKS.

Module ExpressionDetector.
Import LANDMARKS.
Import CONFIG.
#[local] Open Scope float_scope.

Record DetectionResult := mkDetectionResult {
  expression : ExpressionType;
  confidence : float;
}.

Definition getDistance (landmarks : list Landmark) (idx1 idx2 : nat) : float :=
  match landmarks !! idx1, landmarks !! idx2 with
  | Some p1, Some p2 =>
      JS.Math_sqrt (JS.Math_pow2 (x p2 - x p1) + JS.Math_pow2 (y p2 - y p1))
  | _, _ => 0
  end.

Definition getEyeOpening (landmarks : list Landmark) : float :=
  let leftEyeOpen := getDistance landmarks LEFT_EYE_TOP LEFT_EYE_BOTTOM in
  let rightEyeOpen := getDistance landmarks RIGHT_EYE_TOP RIGHT_EYE_BOTTOM in
  (leftEyeOpen + rightEyeOpen) / 2.

Record EyeOpenings := mkEyeOpenings { left : float; right : float }.

Definition getIndividualEyeOpenings (landmarks : list Landmark) : EyeOpenings :=
  {| left := getDistance landmarks LEFT_EYE_TOP LEFT_EYE_BOTTOM;
     right := getDistance landmarks RIGHT_EYE_TOP RIGHT_EYE_BOTTOM |}.

Definition getMouthOpening (landmarks : list Landmark) : float :=
  getDistance landmarks UPPER_LIP_TOP LOWER_LIP_BOTTOM.

Definition getMouthWidth (landmarks : list Landmark) : float :=
  getDistance landmarks MOUTH_LEFT MOUTH_RIGHT.

Definition getSmileRatio (landmarks : list Landmark) : float :=
  match landmarks !! MOUTH_LEFT, landmarks !! MOUTH_RIGHT,
        landmarks !! UPPER_LIP_TOP with
  | Some leftCorner, Some rightCorner, Some upperLip =>
      let cornerHeight := (y leftCorner + y rightCorner) / 2 in
      y upperLip - cornerHeight
  | _, _, _ => 0
  end.

Definition getEyebrowHeight (landmarks : list Landmark) : float :=
  match landmarks !! LEFT_BROW_TOP, landmarks !! RIGHT_BROW_TOP,
        landmarks !! LEFT_EYE_TOP, landmarks !! RIGHT_EYE_TOP with
  | Some leftBrow, Some rightBrow, Some leftEye, Some rightEye =>
      let leftHeight := y leftEye - y leftBrow in
      let rightHeight := y rightEye - y rightBrow in
      (leftHeight + rightHeight) / 2
  | _, _, _, _ => 0
  end.

Definition getMouthPuckerRatio (landmarks : list Landmark) : float :=
  let height := getMouthOpening landmarks in
  let width := getMouthWidth landmarks in
  if JS.gt width 0 then height / width else 0.

Definition detectScream (landmarks : list Landmark) : option DetectionResult :=
  let eyeOpening := getEyeOpening landmarks in
  let mouthOpen := getMouthOpening landmarks in
  let browHeight := getEyebrowHeight landmarks in
  if JS.gt eyeOpening (thresholds.eyeOpening * 0.9)
     && JS.gt mouthOpen (thresholds.mouthOpen * 2.5)
     && JS.gt browHeight thresholds.browRaise
  then
    let conf := (mouthOpen / (thresholds.mouthOpen * 2.5)
                 + eyeOpening / thresholds.eyeOpening) / 2 in
    Some {| expression := scream; confidence := JS.Math_min conf 1 |}
  else None.

Definition detectShock (landmarks : list Landmark) : option DetectionResult :=
  let eyeOpening := getEyeOpening landmarks in
  let mouthOpen := getMouthOpening landmarks in
  let browHeight := getEyebrowHeight landmarks in
  if JS.gt eyeOpening thresholds.eyeOpening
     && JS.lt mouthOpen (thresholds.mouthOpen * 2)
     && JS.gt browHeight (thresholds.browRaise * 0.8)
  then Some {| expression := shock;
               confidence := JS.Math_min (eyeOpening / thresholds.eyeOpening) 1 |}
  else None.

Definition detectTongue (landmarks : list Landmark) : option DetectionResult :=
  let mouthOpen := getMouthOpening landmarks in
  let eyeOpening := getEyeOpening landmarks in
  if JS.gt mouthOpen thresholds.mouthOpen
     && JS.lt eyeOpening (thresholds.eyeOpening * 1.5)
  then Some {| expression := tongue;
               confidence := JS.Math_min (mouthOpen / thresholds.mouthOpen) 1 |}
  else None.

Definition detectKissy (landmarks : list Landmark) : option DetectionResult :=
  let puckerRatio := getMouthPuckerRatio landmarks in
  let mouthWidth := getMouthWidth landmarks in
  if JS.gt puckerRatio thresholds.puckerRatio && JS.lt mouthWidth 0.08
  then Some {| expression := kissy;
               confidence := JS.Math_min (puckerRatio / 0.5) 1 |}
  else None.

Definition detectHappy (landmarks : list Landmark) : option DetectionResult :=
  let smileRatio := getSmileRatio landmarks in
  let mouthOpen := getMouthOpening landmarks in
  if JS.gt smileRatio thresholds.smile
     && JS.lt mouthOpen (thresholds.mouthOpen * 1.5)
  then Some {| expression := happy;
               confidence := JS.Math_min (smileRatio / thresholds.smile) 1 |}
  else None.

Definition detectSad (landmarks : list Landmark) : option DetectionResult :=
  let smileRatio := getSmileRatio landmarks in
  let browHeight := getEyebrowHeight landmarks in
  if JS.lt smileRatio (- thresholds.smile * 0.5)
     && JS.lt browHeight (thresholds.browRaise * 0.5)
  then Some {| expression := sad;
               confidence :=
                 JS.Math_min (JS.Math_abs smileRatio / thresholds.smile) 1 |}
  else None.

Definition detectWink (landmarks : list Landmark) : option DetectionResult :=
  let eyes := getIndividualEyeOpenings landmarks in
  let ratio := JS.Math_min (left eyes) (right eyes)
               / JS.Math_max (left eyes) (right eyes) in
  if JS.lt ratio thresholds.winkRatio
     && JS.gt (JS.Math_max (left eyes) (right eyes)) 0.015
  then Some {| expression := wink; confidence := 1 - ratio |}
  else None.

Definition detectGlare (landmarks : list Landmark) : option DetectionResult :=
  let eyeOpening := getEyeOpening landmarks in
  let smileRatio := getSmileRatio landmarks in
  if JS.lt eyeOpening thresholds.squinting
     && JS.lt smileRatio (thresholds.smile * 0.5)
  then Some {| expression := glare;
               confidence := 1 - (eyeOpening / thresholds.squinting) |}
  else None.

Definition detectSuspicious (landmarks : list Landmark) : option DetectionResult :=
  let eyes := getIndividualEyeOpenings landmarks in
  let eyeRatio := JS.Math_min (left eyes) (right eyes)
                  / JS.Math_max (left eyes) (right eyes) in
  if JS.lt eyeRatio 0.8 && JS.gt eyeRatio thresholds.winkRatio
  then Some {| expression := suspicious; confidence := 0.8 - eyeRatio |}
  else None.

Definition detectSleepy (landmarks : list Landmark) : option DetectionResult :=
  let eyeOpening := getEyeOpening landmarks in
  let mouthOpen := getMouthOpening landmarks in
  if JS.lt eyeOpening thresholds.sleepyThreshold
     && JS.gt eyeOpening 0.008
     && JS.lt mouthOpen thresholds.mouthOpen
  then Some {| expression := sleepy;
               confidence := 1 - (eyeOpening / thresholds.sleepyThreshold) |}
  else None.

Definition detectEyebrowRaise (landmarks : list Landmark) : option DetectionResult :=
  let browHeight := getEyebrowHeight landmarks in
  let eyeOpening := getEyeOpening landmarks in
  if JS.gt browHeight (thresholds.browRaise * 1.5)
     && JS.lt eyeOpening thresholds.eyeOpening
  then Some {| expression := eyebrow;
               confidence :=
                 JS.Math_min (browHeight / (thresholds.browRaise * 1.5)) 1 |}
  else None.

Definition detectPout (landmarks : list Landmark) : option DetectionResult :=
  let mouthOpen := getMouthOpening landmarks in
  match landmarks !! LOWER_LIP_CENTER, landmarks !! CHIN with
  | Some lowerLip, Some chin =>
      let lipProtrusion := y chin - y lowerLip in
      if JS.gt lipProtrusion 0.06 && JS.lt mouthOpen (thresholds.mouthOpen * 0.8)
      then Some {| expression := pout;
                   confidence := JS.Math_min (lipProtrusion / 0.08) 1 |}
      else None
  | _, _ => None
  end.

Definition detectDisgust (landmarks : list Landmark) : option DetectionResult :=
  let eyeOpening := getEyeOpening landmarks in
  match landmarks !! UPPER_LIP_TOP, landmarks !! NOSE_TIP with
  | Some upperLip, Some nose =>
      let lipNoseDistance := y upperLip - y nose in
      if JS.lt lipNoseDistance 0.025
         && JS.lt eyeOpening (thresholds.eyeOpening * 0.8)
      then Some {| expression := disgust;
                   confidence := 1 - (lipNoseDistance / 0.03) |}
      else None
  | _, _ => None
  end.

Definition detectConfused (landmarks : list Landmark) : option DetectionResult :=
  let browHeight := getEyebrowHeight landmarks in
  let mouthOpen := getMouthOpening landmarks in
  if JS.gt mouthOpen (thresholds.mouthOpen * 0.3)
     && JS.lt mouthOpen (thresholds.mouthOpen * 0.8)
     && JS.gt browHeight (thresholds.browRaise * 0.5)
  then Some {| expression := confused; confidence := 0.6 |}
  else None.

(** The rule table of [analyze], in the order of the array literal. *)
Definition rules : list (list Landmark -> option DetectionResult) :=
  [ detectScream; detectShock; detectTongue; detectKissy; detectHappy;
    detectWink; detectSad; detectGlare; detectSuspicious; detectSleepy;
    detectEyebrowRaise; detectPout; detectDisgust; detectConfused ].

(** The [for ... of detectors] loop, from [rawExpression = 'neutral'],
    [rawConfidence = 0]. *)
Fixpoint firstMatch (detectors : list (unit -> option DetectionResult))
    : ExpressionType * float :=
  match detectors with
  | [] => (neutral, 0)
  | detect :: rest =>
      match detect tt with
      | Some result => (expression result, confidence result)
      | None => firstMatch rest
      end
  end.

Definition classifyWith
    (table : list (list Landmark -> option DetectionResult))
    (landmarks : list Landmark) : ExpressionType * float :=
  firstMatch (map (fun rule (_ : unit) => rule landmarks) table).

Abbreviation state := (Stabilizer.state ExpressionType).

(** [analyze], with the rule table as a parameter. *)
Definition analyzeWith
    (table : list (list Landmark -> option DetectionResult))
    (now : Z) (landmarks : list Landmark) (st : state)
    : DetectionResult * state :=
  if (length landmarks <? 468)%nat then
    ({| expression := neutral; confidence := 0 |}, st)
  else
    let '(rawExpression, rawConfidence) := classifyWith table landmarks in
    let st' := Stabilizer.stabilize now rawExpression st in
    ({| expression := Stabilizer.current st'; confidence := rawConfidence |}, st').

Definition classify := classifyWith rules.
Definition analyze := analyzeWith rules.

Definition fresh : state := Stabilizer.fresh neutral.
Definition reset (st : state) : state := Stabilizer.reset neutral st.

(** *** Sequences of calls *)

(** A call: the value of [Date.now()] and the landmark set. *)
Definition call : Type := Z * list Landmark.

Definition step (c : call) (st : state) : DetectionResult * state :=
  analyze (fst c) (snd c) st.

(** The results of a sequence of calls on the detector in state [st]. *)
Fixpoint results (calls : list call) (st : state) : list DetectionResult :=
  match calls with
  | [] => []
  | c :: rest => fst (step c st) :: results rest (snd (step c st))
  end.

Definition stateAfter (calls : list call) (st : state) : state :=
  fold_left (fun st c => snd (step c st)) calls st.

(** The state of a new detector after the first [i] calls. *)
Definition stateAt (calls : list call) (i : nat) : state :=
  stateAfter (take i calls) fresh.

(** What a call contributes to the stabiliser. *)
Definition event (c : call) : Z * option ExpressionType :=
  (fst c, if (length (snd c) <? 468)%nat then None
          else Some (fst (classify (snd c)))).

(** *** The priority order, by category

    [priority] is the order in which the rules are to be tried and [ruleOf]
    the rule that decides each category; [rules] above is the table that
    [analyze] builds. *)

Definition priority : list ExpressionType :=
  [ scream; shock; tongue; kissy; happy; wink; sad; glare; suspicious;
    sleepy; eyebrow; pout; disgust; confused ].

Definition ruleOf (g : ExpressionType) : list Landmark -> option DetectionResult :=
  match g with
  | scream => detectScream
  | shock => detectShock
  | tongue => detectTongue
  | kissy => detectKissy
  | happy => detectHappy
  | wink => detectWink
  | sad => detectSad
  | glare => detectGlare
  | suspicious => detectSuspicious
  | sleepy => detectSleepy
  | eyebrow => detectEyebrowRaise
  | pout => detectPout
  | disgust => detectDisgust
  | confused => detectConfused
  | neutral => fun _ => None
  end.

(** The categories whose rule holds on [landmarks], in priority order. *)
Definition matching (landmarks : list Landmark) : list ExpressionType :=
  filter (fun g => is_Some (ruleOf g landmarks)) priority.

(** [a] comes before [b] in the priority order. *)
Definition before (a b : ExpressionType) : Prop :=
  exists i j, priority !! i = Some a /\ priority !! j = Some b /\ (i < j)%nat.

End ExpressionDetector.

(** ** [memePool.ts] *)

Module MemePool.

Definition RECENT_HISTORY_SIZE : nat := 3.

(** The two module-level objects: [memePool] (category name to asset paths,
    filled by [initializeMemePool] from the bundled assets) and [recentMemes]
    (category name to the assets returned last). *)
Record store := mkStore {
  memePool : gmap string (list string);
  recentMemes : gmap string (list string);
}.

(** [memePool] as declared: every category with an empty array. *)
Definition declaredPool : gmap string (list string) :=
  list_to_map
    ((λ k : string, (k, @nil string)) <$>
     [ "shock"; "scream"; "tongue"; "happy"; "sad"; "wink"; "glare";
       "suspicious"; "sleepy"; "eyebrow"; "confused"; "pout"; "disgust";
       "kissy"; "neutral"; "middleFinger"; "thumbsUp"; "thumbsDown"; "peace";
       "ok"; "rockOn"; "wave"; "fist"; "pointing"; "none" ]).

(** The state when the module is loaded, for a given content of the pool. *)
Definition loaded (pool : gmap string (list string)) : store :=
  {| memePool := pool; recentMemes := ∅ |}.

(** [arr[Math.floor(Math.random() * arr.length)]] for the draw [r]. *)
Definition pick (r : nat) (arr : list string) : option string :=
  arr !! (r `mod` length arr)%nat.

(** [getRandomMeme(type)]: the result ([None] is [null]) and the new state.
    [pick] cannot fail in the second part, where [available] is not empty
    (lemma [pick_is_Some]). *)
Definition getRandomMeme (r : nat) (type : string) (st : store)
    : option string * store :=
  match memePool st !! type with
  | Some ((_ :: _) as pool) =>
      let recent := default [] (recentMemes st !! type) in
      let available := filter (λ m, m ∉ recent) pool in
      let available := if decide (length available = 0%nat) then pool else available in
      match pick r available with
      | Some selected =>
          let recent := recent ++ [selected] in
          let recent :=
            if (RECENT_HISTORY_SIZE <? length recent)%nat then tail recent else recent in
          (Some selected,
           {| memePool := memePool st;
              recentMemes := <[type := recent]> (recentMemes st) |})
      | None => (None, st)
      end
  | _ =>
      match memePool st !! "neutral" with
      | Some ((_ :: _) as neutralPool) => (pick r neutralPool, st)
      | _ => (None, st)
      end
  end.

(** A sequence of calls [(type, r)]: the log of [(type, result)] and the
    final state. *)
Fixpoint run (calls : list (string * nat)) (st : store)
    : list (string * option string) * store :=
  match calls with
  | [] => ([], st)
  | (type, r) :: rest =>
      let '(res, st1) := getRandomMeme r type st in
      let '(log, st2) := run rest st1 in
      ((type, res) :: log, st2)
  end.

(** The results of the calls made for category [c], in call order. *)
Definition resultsFor (c : string) (log : list (string * option string))
    : list (option string) :=
  snd <$> filter (λ e, fst e = c) log.

(** [getMemeCount(type)]: [memePool[type]?.length || 0]. *)
Definition getMemeCount (type : string) (st : store) : nat :=
  default 0%nat (length <$> memePool st !! type).

(** [getTotalMemeCount()]: [Object.values(memePool).reduce((sum, arr) =>
    sum + arr.length, 0)]; the sum does not depend on the order in which the
    values are visited. *)
Definition getTotalMemeCount (st : store) : nat :=
  map_fold (fun (_ : string) (arr : list string) (sum : nat) => (sum + length arr)%nat)
           0%nat (memePool st).

(** [isPoolReady()]: [getTotalMemeCount() > 0]. *)
Definition isPoolReady (st : store) : bool := (0 <? getTotalMemeCount st)%nat.

(** The last three entries of a list, oldest first. *)
Abbreviation last3 l := (drop (Nat.sub (length l) 3) l).

(** Every buffer has at most [RECENT_HISTORY_SIZE] entries. *)
Definition bounded (st : store) : Prop :=
  forall c : string, (length (default [] (recentMemes st !! c)) <= RECENT_HISTORY_SIZE)%nat.

(** No asset twice within three consecutive picks. *)
Definition spaced (ids : list string) : Prop :=
  forall (i j : nat) (a : string), (i < j <= i + 2)%nat -> ids !! i = Some a -> ids !! j <> Some a.

End MemePool.

(** ** Sample inputs *)

Module Samples.

Definition pt (px py : float) : Landmark := {| x := px; y := py; z := Some 0%float |}.

(** [n] landmarks at (0.5, 0.5), as the test helpers build them. *)
Definition base (n : nat) : list Landmark := replicate n (pt 0.5 0.5).

(** Overwrites the landmarks at the listed indices. *)
Definition place (changes : list (nat * Landmark)) (l : list Landmark) : list Landmark :=
  foldr (λ c acc, <[fst c := snd c]> acc) l changes.

(** A closed hand: no finger tip above its PIP joint, thumb tip at the palm. *)
Definition fistHand : list Landmark := base 21.

(** Index and middle finger raised. *)
Definition peaceHand : list Landmark :=
  place [(8%nat, pt 0.5 0.3); (12%nat, pt 0.5 0.3)] (base 21).

(** All five digits spread, thumb tip away from the index tip. *)
Definition waveHand : list Landmark :=
  place [(2%nat, pt 0.45 0.5); (4%nat, pt 0.3 0.5); (5%nat, pt 0.5 0.5);
         (17%nat, pt 0.6 0.5); (8%nat, pt 0.5 0.3); (12%nat, pt 0.55 0.3);
         (16%nat, pt 0.6 0.3); (20%nat, pt 0.65 0.3)] (base 21).

(** As [waveHand], with the thumb tip touching the index tip. *)
Definition okWaveHand : list Landmark :=
  place [(4%nat, pt 0.3 0.3); (8%nat, pt 0.31 0.29)] waveHand.

(** A face with eyes open by 0.02 and the nose tip below the upper lip. *)
Definition disgustFace : list Landmark :=
  place [(145%nat, pt 0.5 0.52); (374%nat, pt 0.5 0.52); (4%nat, pt 0.5 0.9)]
        (base 478).

(** The landmark sets [sets] analysed at times [t0], [t0 + d], [t0 + 2d], ... *)
Fixpoint frames (t0 d : Z) (sets : list (list Landmark)) : list (Z * list Landmark) :=
  match sets with
  | [] => []
  | landmarks :: rest => (t0, landmarks) :: frames (t0 + d) d rest
  end.

(** [n] landmark sets, alternating between [a] and [b], starting with [a]. *)
Definition alternate (n : nat) (a b : list Landmark) : list (list Landmark) :=
  (fun i => if Nat.even i then a else b) <$> seq 0 n.

(** A timestamp as [Date.now()] returns them. *)
Definition someTime : Z := 1700000000000.

(** Eleven frames of a closed hand, 33 ms apart: the last one commits [fist]. *)
Definition fistRun : list (Z * list Landmark) :=
  frames someTime 33 (replicate 11 fistHand).

(** Eleven frames of the flat test face, 33 ms apart: the last one commits
    [glare]. *)
Definition glareRun : list (Z * list Landmark) :=
  frames someTime 33 (replicate 11 (base 478)).

(** Eleven frames of a closed hand, then sixteen of the peace sign, 33 ms
    apart: [fist] is committed by frame 10 and [peace] by frame 26. *)
Definition fistPeaceRun : list (Z * list Landmark) :=
  frames someTime 33 (replicate 11 fistHand ++ replicate 16 peaceHand).

(** A pool in which only ["neutral"] has assets. *)
Definition neutralOnly : gmap string (list string) :=
  <["neutral" := ["larry.png"; "calm.png"; "stare.png"; "blank.png"]]>
    MemePool.declaredPool.

(** Two assets for ["happy"], each listed twice (as after a second run of
    [initializeMemePool], which pushes every asset again). *)
Definition doubledHappy : gmap string (list string) :=
  <["happy" := ["grin.png"; "laugh.png"; "grin.png"; "laugh.png"]]>
    MemePool.declaredPool.

(** Five distinct assets for ["happy"]. *)
Definition fiveHappy : gmap string (list string) :=
  <["happy" := ["a.png"; "b.png"; "c.png"; "d.png"; "e.png"]]>
    MemePool.declaredPool.

End Samples.

(** ** [useCamera.ts]: the detection hook

    The part of [processFrame] between the landmark models and the React
    state: the two [analyze] calls with their defaults, and the choice of the
    active type.  [None] for the landmark sets stands for a landmarker that
    is not loaded or whose [detectForVideo] threw (the [catch] ignores it);
    each call of [analyze] reads [Date.now()] itself. *)

Module Detection.

(** [type DetectionType = ExpressionType | GestureType] *)
Inductive DetectionType :=
  | Expression (e : ExpressionType)
  | Gesture (g : GestureType).

(** [expression], [expressionConfidence] after the first [try] block. *)
Definition detectExpression
    (now : Z) (faceLandmarks : option (list (list Landmark)))
    (st : ExpressionDetector.state)
    : (ExpressionType * float) * ExpressionDetector.state :=
  match faceLandmarks with
  | Some (landmarks :: _) =>
      let result := ExpressionDetector.analyze now landmarks st in
      ((ExpressionDetector.expression (fst result),
        ExpressionDetector.confidence (fst result)), snd result)
  | _ => ((neutral, 0%float), st)
  end.

(** [gesture], [gestureConfidence] after the second [try] block. *)
Definition detectGesture
    (now : Z) (handLandmarks : option (list (list Landmark)))
    (st : GestureDetector.state)
    : (GestureType * float) * GestureDetector.state :=
  match handLandmarks with
  | Some (landmarks :: _) =>
      let result := GestureDetector.analyze now landmarks st in
      ((GestureDetector.gesture (fst result),
        GestureDetector.confidence (fst result)), snd result)
  | _ => ((none, 0%float), st)
  end.

(** [activeType], [confidence]: "Gesture takes priority". *)
Definition arbitrate
    (expression : ExpressionType) (expressionConfidence : float)
    (gesture : GestureType) (gestureConfidence : float)
    : DetectionType * float :=
  if bool_decide (gesture <> none) && JS.gt gestureConfidence 0.5
  then (Gesture gesture, gestureConfidence)
  else (Expression expression, expressionConfidence).

(** One frame: both detectors, then the arbitration. *)
Definition classifyFrame
    (nowFace nowHand : Z)
    (faceLandmarks handLandmarks : option (list (list Landmark)))
    (st : ExpressionDetector.state * GestureDetector.state)
    : (DetectionType * float)
      * (ExpressionDetector.state * GestureDetector.state) :=
  let e := detectExpression nowFace faceLandmarks (fst st) in
  let g := detectGesture nowHand handLandmarks (snd st) in
  (arbitrate (fst (fst e)) (snd (fst e)) (fst (fst g)) (snd (fst g)),
   (snd e, snd g)).

End Detection.

(** ** Vocabulary for the properties of the stabiliser *)

Module Window.
Section Window.

Context {C : Type} `{EqDecision C}.

(** How often [g] occurs in a history. *)
Definition occurrences (g : C) (h : list C) : nat :=
  length (filter (fun a => a = g) h).

(** The categories of a history in the order in which they first occur:
    the keys of [counts]. *)
Definition firstSeen (h : list C) : list C :=
  fold_left (fun ks g => if decide (g ∈ ks) then ks else ks ++ [g]) h [].

(** The last [historyLength] entries of a list, oldest first. *)
Definition lastWindow (l : list C) : list C :=
  drop (length l - CONFIG.transitions.historyLength)%nat l.

End Window.

(** The raw categories of the calls that pass the length test, in order. *)
Definition gestureRaws (calls : list GestureDetector.call) : list GestureType :=
  omap (fun c => snd (GestureDetector.event c)) calls.

Definition expressionRaws (calls : list ExpressionDetector.call)
    : list ExpressionType :=
  omap (fun c => snd (ExpressionDetector.event c)) calls.

End Window.

(** * Properties *)

(** ** The temporal stabiliser *)

Section StabilizerFacts.

Context {C : Type} `{EqDecision C}.
Implicit Types (st : Stabilizer.state C) (e : Z * option C).

Import Stabilizer.

Lemma reset_fresh (default : C) st : reset default st = fresh default.
Proof. reflexivity. Qed.

Lemma length_pushHistory (raw : C) (h : list C) :
  (length h <= CONFIG.transitions.historyLength)%nat ->
  (length (pushHistory raw h) <= CONFIG.transitions.historyLength)%nat.
Proof.
  intros Hh. unfold pushHistory.
  destruct (Nat.ltb_spec CONFIG.transitions.historyLength (length (h ++ [raw])))
    as [Hlt|Hge]; [|exact Hge].
  destruct h as [|a h]; simpl in *; [lia|]. rewrite length_app. simpl. lia.
Qed.

(** The vote is defined on every history that is not empty. *)
Lemma bump_not_nil (g : C) counts : bump g counts <> [].
Proof. destruct counts as [|[k n] rest]; simpl; [|destruct (decide (k = g))]; discriminate. Qed.

Lemma tally_snoc (h : list C) (g : C) : tally (h ++ [g]) = bump g (tally h).
Proof. unfold tally. rewrite fold_left_app. reflexivity. Qed.

Lemma insertDesc_not_nil a (l : list (C * nat)) : insertDesc a l <> [].
Proof. destruct l as [|b l]; simpl; [|destruct (snd b <=? snd a)%nat]; discriminate. Qed.

Lemma smoothed_is_Some (h : list C) : h <> [] -> is_Some (smoothed h).
Proof.
  intros Hh. unfold smoothed.
  destruct (tally h) as [|a l] eqn:Ht.
  - destruct h as [|g h] using rev_ind; [done|].
    rewrite tally_snoc in Ht. by apply bump_not_nil in Ht.
  - simpl. destruct (insertDesc a (sortDesc l)) as [|[g n] r] eqn:Hi.
    + by apply insertDesc_not_nil in Hi.
    + by eexists.
Qed.

(** [analyze] votes on a history it has just pushed on, which is not empty:
    the [None] branch of [stabilize] is never taken. *)
Lemma pushHistory_not_nil (raw : C) (h : list C) : pushHistory raw h <> [].
Proof.
  unfold pushHistory.
  destruct (Nat.ltb_spec CONFIG.transitions.historyLength (length (h ++ [raw])))
    as [Hlt|Hge].
  - unfold CONFIG.transitions.historyLength in Hlt.
    destruct (h ++ [raw]) as [|a [|b l]]; simpl in *; [lia|lia|done].
  - by destruct h.
Qed.

Lemma smoothed_pushHistory (raw : C) (h : list C) :
  is_Some (smoothed (pushHistory raw h)).
Proof. apply smoothed_is_Some, pushHistory_not_nil. Qed.

(** What one transition can do: keep the state, clear the candidate, take a
    new candidate (restarting the hold timer), or commit the candidate. *)
Lemma transition_cases (now : Z) (sm : C) st :
  let st' := transition now sm st in
  history st' = history st /\
  ((current st' = current st /\ lastTime st' = lastTime st /\
    ((pending st' = pending st /\ holdStartTime st' = holdStartTime st) \/
     (pending st' = None /\ holdStartTime st' = holdStartTime st) \/
     (exists g, pending st' = Some g /\ pending st <> Some g /\
                holdStartTime st' = now)))
   \/
   (exists g, pending st = Some g /\ g <> current st /\ current st' = g /\
              lastTime st' = now /\ pending st' = None /\
              CONFIG.transitions.holdTime <= now - holdStartTime st /\
              CONFIG.transitions.debounce <= now - lastTime st)).
Proof.
  unfold transition.
  destruct (decide (sm <> current st)) as [Hne|Heq].
  - destruct (decide (pending st <> Some sm)) as [Hp|Hp].
    + simpl. split; [done|]. left. do 2 (split; [done|]).
      right; right. by exists sm.
    + apply dec_stable in Hp.
      destruct (Z.leb_spec CONFIG.transitions.holdTime (now - holdStartTime st)).
      * destruct (Z.leb_spec CONFIG.transitions.debounce (now - lastTime st)).
        -- simpl. split; [done|]. right. exists sm. naive_solver.
        -- simpl. split; [done|]. left. naive_solver.
      * simpl. split; [done|]. left. naive_solver.
  - simpl. split; [done|]. left. naive_solver.
Qed.

Lemma advance_cases e st :
  let st' := advance e st in
  (current st' = current st /\ lastTime st' = lastTime st /\
   ((pending st' = pending st /\ holdStartTime st' = holdStartTime st) \/
    (pending st' = None /\ holdStartTime st' = holdStartTime st) \/
    (exists g, pending st' = Some g /\ pending st <> Some g /\
               holdStartTime st' = fst e)))
  \/
  (exists g, pending st = Some g /\ g <> current st /\ current st' = g /\
             lastTime st' = fst e /\ pending st' = None /\
             CONFIG.transitions.holdTime <= fst e - holdStartTime st /\
             CONFIG.transitions.debounce <= fst e - lastTime st).
Proof.
  destruct e as [now [raw|]]; unfold advance; simpl; [|naive_solver].
  unfold stabilize.
  destruct (smoothed (pushHistory raw (history st))) as [sm|]; [|naive_solver].
  match goal with |- context [transition now sm ?s] =>
    destruct (transition_cases now sm s) as [_ Hc] end.
  exact Hc.
Qed.

Lemma after_snoc (default : C) (events : list (Z * option C)) e :
  after default (events ++ [e]) = advance e (after default events).
Proof. unfold after. rewrite fold_left_app. reflexivity. Qed.

Lemma after_take_S (default : C) (events : list (Z * option C)) (k : nat) e :
  events !! k = Some e ->
  after default (take (S k) events) = advance e (after default (take k events)).
Proof.
  intros Hk. rewrite (take_S_r _ _ _ Hk). apply after_snoc.
Qed.

(** A pending candidate was set at some earlier call, whose time is the
    hold timer, and has been pending ever since. *)
Lemma pending_origin (default : C) (events : list (Z * option C)) (g : C) :
  pending (after default events) = Some g ->
  exists j nowj, (j < length events)%nat /\ (fst <$> events) !! j = Some nowj /\
    holdStartTime (after default events) = nowj /\
    pending (after default (take j events)) <> Some g /\
    forall i, (j < i <= length events)%nat ->
      pending (after default (take i events)) = Some g.
Proof.
  induction events as [|e events IH] using rev_ind; [discriminate|].
  rewrite after_snoc, length_app. simpl.
  intros Hp.
  assert (Hlast : forall i, (length events < i <= length events + 1)%nat ->
            take i (events ++ [e]) = events ++ [e]).
  { intros i Hi. apply take_ge. rewrite length_app. simpl. lia. }
  assert (Hinit : forall i, (i <= length events)%nat ->
            take i (events ++ [e]) = take i events).
  { intros i Hi. by rewrite take_app_le. }
  destruct (advance_cases e (after default events))
    as [(_ & _ & [[Hsame Hh]|[[Hnone _]|(g' & Hg' & Hold & Hh)]])
       |(g' & _ & _ & _ & _ & Hnone & _)]; simpl in *.
  - rewrite Hsame in Hp. destruct (IH Hp) as (j & nowj & Hj & Hl & Hhs & Hb & Hall).
    exists j, nowj. split; [lia|]. split.
    { rewrite fmap_app, lookup_app_l; [done|]. by rewrite length_fmap. }
    split; [congruence|]. split.
    { rewrite Hinit by lia. done. }
    intros i Hi. destruct (decide (i <= length events)%nat).
    + rewrite Hinit by lia. apply Hall. lia.
    + rewrite Hlast by lia. rewrite after_snoc. congruence.
  - congruence.
  - assert (g' = g) as -> by congruence.
    exists (length events), (fst e). split; [lia|]. split.
    { rewrite fmap_app. rewrite lookup_app_r; rewrite length_fmap; [|lia].
      by rewrite Nat.sub_diag. }
    split; [done|]. split.
    { rewrite Hinit by lia. by rewrite firstn_all. }
    intros i Hi. rewrite Hlast by lia. by rewrite after_snoc.
  - congruence.
Qed.

(** [lastTime] is at least the time of every switch made so far. *)
Lemma switch_before_lastTime (default : C) (events : list (Z * option C))
    (k : nat) (now' : Z) :
  (fst <$> events) !! k = Some now' ->
  switchAt (fun i => after default (take i events)) k ->
  now' <= lastTime (after default events).
Proof.
  unfold switchAt.
  induction events as [|e events IH] using rev_ind; [done|].
  intros Hk Hsw. rewrite after_snoc.
  assert (Hlen : (k < length events + 1)%nat).
  { apply lookup_lt_Some in Hk. by rewrite length_fmap, length_app in Hk. }
  destruct (decide (k < length events)%nat) as [Hlt|Hge].
  - rewrite !take_app_le in Hsw by lia.
    rewrite fmap_app, lookup_app_l in Hk by (rewrite length_fmap; lia).
    specialize (IH Hk Hsw).
    destruct (advance_cases e (after default events))
      as [(_ & Hl & _)|(g & _ & _ & _ & Hl & _ & _ & Hd)]; simpl in *.
    + lia.
    + unfold CONFIG.transitions.debounce in Hd. lia.
  - assert (k = length events) as -> by lia.
    rewrite fmap_app, lookup_app_r in Hk by (rewrite length_fmap; lia).
    rewrite length_fmap, Nat.sub_diag in Hk. simpl in Hk.
    rewrite take_ge in Hsw by (rewrite length_app; simpl; lia).
    rewrite take_app_le, firstn_all, after_snoc in Hsw by lia.
    destruct (advance_cases e (after default events))
      as [(Hc & _)|(g & _ & _ & _ & Hl & _)]; simpl in *; [done|].
    assert (fst e = now') by congruence. lia.
Qed.

Theorem hold_respected (default : C) (events : list (Z * option C)) :
  HoldRespected (fst <$> events) (fun i => after default (take i events)).
Proof.
  intros k now Hk Hsw. unfold switchAt in Hsw.
  rewrite list_lookup_fmap in Hk.
  destruct (events !! k) as [e|] eqn:He; [|done].
  simpl in Hk. injection Hk as Hnow.
  rewrite (after_take_S _ _ _ _ He) in *.
  destruct (advance_cases e (after default (take k events)))
    as [(Hc & _)|(g & Hp & _ & Hcur & _ & _ & Hh & _)]; simpl in *; [done|].
  rewrite Hcur.
  destruct (pending_origin _ _ _ Hp) as (j & nowj & Hj & Hl & Hhs & Hb & Hall).
  assert (Hkl : (k < length events)%nat) by (by eapply lookup_lt_Some).
  rewrite length_take in Hj, Hall.
  exists j, nowj. split; [lia|]. split.
  { rewrite fmap_take, lookup_take_lt in Hl by lia. done. }
  split.
  { rewrite take_take in Hb. by replace (j `min` k)%nat with j in Hb by lia. }
  split.
  { intros i Hi. specialize (Hall i). rewrite take_take in Hall.
    replace (i `min` k)%nat with i in Hall by lia. apply Hall. lia. }
  split; [done|]. rewrite Hhs in Hh. by rewrite <- Hnow.
Qed.

Theorem debounce_respected (default : C) (events : list (Z * option C)) :
  DebounceRespected (fst <$> events) (fun i => after default (take i events)).
Proof.
  intros k' k now' now Hlt Hk' Hk Hsw' Hsw.
  rewrite list_lookup_fmap in Hk.
  destruct (events !! k) as [e|] eqn:He; [|done].
  simpl in Hk. injection Hk as Hnow.
  assert (Hkl : (k < length events)%nat) by (by eapply lookup_lt_Some).
  pose proof (switch_before_lastTime default (take k events) k' now') as Hlast.
  unfold switchAt in *.
  rewrite (after_take_S _ _ _ _ He) in Hsw.
  destruct (advance_cases e (after default (take k events)))
    as [(Hc & _)|(g & _ & _ & _ & _ & _ & _ & Hd)]; simpl in *; [done|].
  assert (now' <= lastTime (after default (take k events))); [|lia].
  apply Hlast.
  - rewrite fmap_take, lookup_take_lt by lia. done.
  - rewrite !take_take.
    replace (S k' `min` k)%nat with (S k') by lia.
    by replace (k' `min` k)%nat with k' by lia.
Qed.

End StabilizerFacts.

(** ** The gesture detector *)

Module GestureFacts.
Import Stabilizer GestureDetector.

Lemma analyzeWith_short_gesture table now landmarks (st : state) :
  (length landmarks < 21)%nat ->
  analyzeWith table now landmarks st = ({| gesture := none; confidence := 0 |}, st).
Proof.
  intros Hlen. unfold analyzeWith.
  destruct (Nat.ltb_spec (length landmarks) 21); [done|lia].
Qed.

Lemma analyzeWith_long_gesture table now landmarks (st : state) :
  (21 <= length landmarks)%nat ->
  analyzeWith table now landmarks st =
    ({| gesture := current (stabilize now (fst (classifyWith table landmarks)) st);
        confidence := snd (classifyWith table landmarks) |},
     stabilize now (fst (classifyWith table landmarks)) st).
Proof.
  intros Hlen. unfold analyzeWith.
  destruct (Nat.ltb_spec (length landmarks) 21); [lia|].
  by destruct (classifyWith table landmarks).
Qed.

(** With 21 landmarks the palm landmarks read by [isThumbExtended] exist. *)
Lemma palm_in_range (landmarks : list Landmark) :
  (21 <= length landmarks)%nat ->
  is_Some (landmarks !! HAND_LANDMARKS.INDEX_MCP) /\
  is_Some (landmarks !! HAND_LANDMARKS.PINKY_MCP).
Proof.
  intros Hlen. split; apply lookup_lt_is_Some;
    unfold HAND_LANDMARKS.INDEX_MCP, HAND_LANDMARKS.PINKY_MCP; lia.
Qed.

Lemma step_advance_gesture (c : call) (st : state) :
  snd (step c st) = advance (event c) st.
Proof.
  destruct c as [now landmarks]. unfold step, event, advance, analyze. simpl.
  destruct (Nat.ltb_spec (length landmarks) 21).
  - by rewrite analyzeWith_short_gesture.
  - by rewrite analyzeWith_long_gesture.
Qed.

Lemma stateAfter_events_gesture (calls : list call) (st : state) :
  stateAfter calls st = fold_left (fun st e => advance e st) (event <$> calls) st.
Proof.
  revert st. induction calls as [|c calls IH]; intros st; [done|].
  simpl. rewrite IH. by rewrite step_advance_gesture.
Qed.

Lemma stateAt_after_gesture (calls : list call) (i : nat) :
  stateAt calls i = after none (take i (event <$> calls)).
Proof.
  unfold stateAt, after. by rewrite stateAfter_events_gesture, fmap_take.
Qed.

Lemma event_times_gesture (calls : list call) :
  fst <$> (event <$> calls) = fst <$> calls.
Proof. rewrite <- list_fmap_compose. by apply list_fmap_ext. Qed.

(** *** First match *)

Lemma rules_by_priority_gesture : rules = ruleOf <$> priority.
Proof. reflexivity. Qed.

Lemma priority_NoDup_gesture : NoDup priority.
Proof. apply (bool_decide_unpack _). by vm_compute. Qed.

Lemma ruleOf_category_gesture g landmarks r :
  ruleOf g landmarks = Some r -> gesture r = g.
Proof.
  destruct g; simpl;
    unfold detectMiddleFinger, detectThumbsUp, detectThumbsDown, detectPeace,
      detectOK, detectRockOn, detectPointing, detectWave, detectFist;
    intros Hr;
    repeat match type of Hr with
           | match ?a with _ => _ end = _ => destruct a; try discriminate
           | (if ?a then _ else _) = _ => destruct a; try discriminate
           end;
    by inversion Hr.
Qed.

Lemma classifyWith_skip_gesture pre post landmarks :
  Forall (fun p => p landmarks = None) pre ->
  classifyWith (pre ++ post) landmarks = classifyWith post landmarks.
Proof.
  unfold classifyWith. induction 1 as [|p pre Hp _ IH]; [done|].
  simpl. by rewrite Hp.
Qed.

Lemma classifyWith_hit_gesture d post landmarks r :
  d landmarks = Some r ->
  classifyWith (d :: post) landmarks = (gesture r, confidence r).
Proof. unfold classifyWith. simpl. by intros ->. Qed.

(** The raw classification is the result of the first category of the
    priority order whose rule holds. *)
Lemma classify_earliest_gesture (l : list GestureType) landmarks i a :
  l !! i = Some a -> is_Some (ruleOf a landmarks) ->
  exists i0 g r, (i0 <= i)%nat /\ l !! i0 = Some g /\
    ruleOf g landmarks = Some r /\
    classifyWith (ruleOf <$> l) landmarks = (g, confidence r) /\
    forall i' c, (i' < i0)%nat -> l !! i' = Some c -> ruleOf c landmarks = None.
Proof.
  revert i. induction l as [|c l IH]; intros i Hi Ha; [done|].
  destruct (ruleOf c landmarks) as [r|] eqn:Hc.
  - exists 0%nat, c, r. split; [lia|]. split; [done|]. split; [done|]. split.
    + rewrite fmap_cons, (classifyWith_hit_gesture _ _ _ _ Hc).
      by rewrite (ruleOf_category_gesture _ _ _ Hc).
    + intros i' c' Hlt. lia.
  - destruct i as [|i].
    { simpl in Hi. injection Hi as ->. rewrite Hc in Ha. by destruct Ha. }
    destruct (IH i Hi Ha) as (i0 & g & r & Hle & Hg & Hr & Hcl & Hmin).
    exists (S i0), g, r. split; [lia|]. split; [done|]. split; [done|]. split.
    + rewrite fmap_cons.
      change (ruleOf c :: (ruleOf <$> l)) with ([ruleOf c] ++ (ruleOf <$> l)).
      rewrite classifyWith_skip_gesture; [done|]. by constructor.
    + intros [|i'] c' Hlt Hc'; [simpl in Hc'; congruence|].
      apply (Hmin i'); [lia|done].
Qed.

Lemma classify_none_gesture landmarks :
  matching landmarks = [] -> classify landmarks = (none, 0%float).
Proof.
  unfold matching, classify. rewrite rules_by_priority_gesture.
  induction priority as [|c l IH]; [done|].
  rewrite filter_cons. destruct (decide (is_Some (ruleOf c landmarks))) as [|Hn]; [done|].
  intros Hl. rewrite fmap_cons.
  change (ruleOf c :: (ruleOf <$> l)) with ([ruleOf c] ++ (ruleOf <$> l)).
  rewrite classifyWith_skip_gesture; [by apply IH|].
  constructor; [|done]. by destruct (ruleOf c landmarks); [destruct Hn|].
Qed.

End GestureFacts.

(** ** The expression detector *)

Module ExpressionFacts.
Import Stabilizer ExpressionDetector.

Lemma analyzeWith_short_expression table now landmarks (st : state) :
  (length landmarks < 468)%nat ->
  analyzeWith table now landmarks st = ({| expression := neutral; confidence := 0 |}, st).
Proof.
  intros Hlen. unfold analyzeWith.
  destruct (Nat.ltb_spec (length landmarks) 468); [done|lia].
Qed.

Lemma analyzeWith_long_expression table now landmarks (st : state) :
  (468 <= length landmarks)%nat ->
  analyzeWith table now landmarks st =
    ({| expression := current (stabilize now (fst (classifyWith table landmarks)) st);
        confidence := snd (classifyWith table landmarks) |},
     stabilize now (fst (classifyWith table landmarks)) st).
Proof.
  intros Hlen. unfold analyzeWith.
  destruct (Nat.ltb_spec (length landmarks) 468); [lia|].
  by destruct (classifyWith table landmarks).
Qed.

Lemma step_advance_expression (c : call) (st : state) :
  snd (step c st) = advance (event c) st.
Proof.
  destruct c as [now landmarks]. unfold step, event, advance, analyze. simpl.
  destruct (Nat.ltb_spec (length landmarks) 468).
  - by rewrite analyzeWith_short_expression.
  - by rewrite analyzeWith_long_expression.
Qed.

Lemma stateAfter_events_expression (calls : list call) (st : state) :
  stateAfter calls st = fold_left (fun st e => advance e st) (event <$> calls) st.
Proof.
  revert st. induction calls as [|c calls IH]; intros st; [done|].
  simpl. rewrite IH. by rewrite step_advance_expression.
Qed.

Lemma stateAt_after_expression (calls : list call) (i : nat) :
  stateAt calls i = after neutral (take i (event <$> calls)).
Proof.
  unfold stateAt, after. by rewrite stateAfter_events_expression, fmap_take.
Qed.

Lemma event_times_expression (calls : list call) :
  fst <$> (event <$> calls) = fst <$> calls.
Proof. rewrite <- list_fmap_compose. by apply list_fmap_ext. Qed.

(** *** First match *)

Lemma rules_by_priority_expression : rules = ruleOf <$> priority.
Proof. reflexivity. Qed.

Lemma priority_NoDup_expression : NoDup priority.
Proof. apply (bool_decide_unpack _). by vm_compute. Qed.

Lemma ruleOf_category_expression g landmarks r :
  ruleOf g landmarks = Some r -> expression r = g.
Proof.
  destruct g; simpl;
    unfold detectScream, detectShock, detectTongue, detectKissy, detectHappy,
      detectWink, detectSad, detectGlare, detectSuspicious, detectSleepy,
      detectEyebrowRaise, detectPout, detectDisgust, detectConfused;
    intros Hr;
    repeat match type of Hr with
           | match ?a with _ => _ end = _ => destruct a; try discriminate
           | (if ?a then _ else _) = _ => destruct a; try discriminate
           end;
    by inversion Hr.
Qed.

Lemma classifyWith_skip_expression pre post landmarks :
  Forall (fun p => p landmarks = None) pre ->
  classifyWith (pre ++ post) landmarks = classifyWith post landmarks.
Proof.
  unfold classifyWith. induction 1 as [|p pre Hp _ IH]; [done|].
  simpl. by rewrite Hp.
Qed.

Lemma classifyWith_hit_expression d post landmarks r :
  d landmarks = Some r ->
  classifyWith (d :: post) landmarks = (expression r, confidence r).
Proof. unfold classifyWith. simpl. by intros ->. Qed.

(** The raw classification is the result of the first category of the
    priority order whose rule holds. *)
Lemma classify_earliest_expression (l : list ExpressionType) landmarks i a :
  l !! i = Some a -> is_Some (ruleOf a landmarks) ->
  exists i0 g r, (i0 <= i)%nat /\ l !! i0 = Some g /\
    ruleOf g landmarks = Some r /\
    classifyWith (ruleOf <$> l) landmarks = (g, confidence r) /\
    forall i' c, (i' < i0)%nat -> l !! i' = Some c -> ruleOf c landmarks = None.
Proof.
  revert i. induction l as [|c l IH]; intros i Hi Ha; [done|].
  destruct (ruleOf c landmarks) as [r|] eqn:Hc.
  - exists 0%nat, c, r. split; [lia|]. split; [done|]. split; [done|]. split.
    + rewrite fmap_cons, (classifyWith_hit_expression _ _ _ _ Hc).
      by rewrite (ruleOf_category_expression _ _ _ Hc).
    + intros i' c' Hlt. lia.
  - destruct i as [|i].
    { simpl in Hi. injection Hi as ->. rewrite Hc in Ha. by destruct Ha. }
    destruct (IH i Hi Ha) as (i0 & g & r & Hle & Hg & Hr & Hcl & Hmin).
    exists (S i0), g, r. split; [lia|]. split; [done|]. split; [done|]. split.
    + rewrite fmap_cons.
      change (ruleOf c :: (ruleOf <$> l)) with ([ruleOf c] ++ (ruleOf <$> l)).
      rewrite classifyWith_skip_expression; [done|]. by constructor.
    + intros [|i'] c' Hlt Hc'; [simpl in Hc'; congruence|].
      apply (Hmin i'); [lia|done].
Qed.

Lemma classify_none_expression landmarks :
  matching landmarks = [] -> classify landmarks = (neutral, 0%float).
Proof.
  unfold matching, classify. rewrite rules_by_priority_expression.
  induction priority as [|c l IH]; [done|].
  rewrite filter_cons. destruct (decide (is_Some (ruleOf c landmarks))) as [|Hn]; [done|].
  intros Hl. rewrite fmap_cons.
  change (ruleOf c :: (ruleOf <$> l)) with ([ruleOf c] ++ (ruleOf <$> l)).
  rewrite classifyWith_skip_expression; [by apply IH|].
  constructor; [|done]. by destruct (ruleOf c landmarks); [destruct Hn|].
Qed.

End ExpressionFacts.

(** ** Claims about [analyze] *)

Module Claims.
Import Stabilizer Samples.

(** C3 as stated fails: the face detector tests the length against 468, so a
    set of 468 landmarks (fewer than 478) is classified; on a new detector the
    flat face returns confidence 1, not 0. *)
Lemma short_face_478_counterexample :
  ~ (forall now landmarks st, (length landmarks < 478)%nat ->
       fst (ExpressionDetector.analyze now landmarks st) =
         {| ExpressionDetector.expression := neutral;
            ExpressionDetector.confidence := 0 |}).
Proof.
  intros Hclaim.
  specialize (Hclaim someTime (base 468) ExpressionDetector.fresh).
  assert (Hlen : (length (base 468) < 478)%nat) by (vm_compute; lia).
  apply Hclaim in Hlen.
  apply (f_equal (fun r => PrimFloat.ltb 0 (ExpressionDetector.confidence r))) in Hlen.
  vm_compute in Hlen. discriminate.
Qed.

(** C3 (amended): a face landmark set with fewer than 468 entries gives
    ['neutral'] with confidence 0, and a hand landmark set with fewer than 21
    entries gives ['none'] with confidence 0, whatever the rule table is: no
    rule is consulted. *)
Theorem short_landmarks_default :
  (forall table now landmarks st, (length landmarks < 468)%nat ->
     fst (ExpressionDetector.analyzeWith table now landmarks st) =
       {| ExpressionDetector.expression := neutral;
          ExpressionDetector.confidence := 0 |}) /\
  (forall table now landmarks st, (length landmarks < 21)%nat ->
     fst (GestureDetector.analyzeWith table now landmarks st) =
       {| GestureDetector.gesture := none; GestureDetector.confidence := 0 |}).
Proof.
  split; intros table now landmarks st Hlen.
  - by rewrite ExpressionFacts.analyzeWith_short_expression.
  - by rewrite GestureFacts.analyzeWith_short_gesture.
Qed.

Lemma short_landmarks_default_witness :
  fst (ExpressionDetector.analyzeWith ExpressionDetector.rules someTime
         (base 467) ExpressionDetector.fresh) =
    {| ExpressionDetector.expression := neutral;
       ExpressionDetector.confidence := 0 |} /\
  fst (GestureDetector.analyzeWith GestureDetector.rules someTime
         (base 20) GestureDetector.fresh) =
    {| GestureDetector.gesture := none; GestureDetector.confidence := 0 |}.
Proof.
  split.
  - apply (proj1 short_landmarks_default). vm_compute. lia.
  - apply (proj2 short_landmarks_default). vm_compute. lia.
Defined.

(** C9: a call with a landmark set shorter than the detector's minimum (468
    face landmarks, 21 hand landmarks) leaves all five fields as they were and
    returns the default category with confidence 0, which differs from
    [current] whenever [current] is not the default. *)
Theorem short_landmarks_frame :
  (forall now landmarks (st : ExpressionDetector.state),
     (length landmarks < 468)%nat ->
     ExpressionDetector.analyze now landmarks st =
       ({| ExpressionDetector.expression := neutral;
           ExpressionDetector.confidence := 0 |}, st) /\
     (current st <> neutral ->
      ExpressionDetector.expression
        (fst (ExpressionDetector.analyze now landmarks st)) <> current st)) /\
  (forall now landmarks (st : GestureDetector.state),
     (length landmarks < 21)%nat ->
     GestureDetector.analyze now landmarks st =
       ({| GestureDetector.gesture := none; GestureDetector.confidence := 0 |}, st) /\
     (current st <> none ->
      GestureDetector.gesture
        (fst (GestureDetector.analyze now landmarks st)) <> current st)).
Proof.
  split; intros now landmarks st Hlen.
  - unfold ExpressionDetector.analyze.
    rewrite ExpressionFacts.analyzeWith_short_expression by done. simpl.
    split; [done|]. congruence.
  - unfold GestureDetector.analyze.
    rewrite GestureFacts.analyzeWith_short_gesture by done. simpl.
    split; [done|]. congruence.
Qed.

(** After [glareRun] and [fistRun] the detectors show [glare] and [fist]; an
    empty landmark set then returns the default and changes nothing. *)
Lemma short_landmarks_frame_witness :
  (current (ExpressionDetector.stateAt glareRun 11) = glare /\
   ExpressionDetector.analyze (someTime + 363) []
       (ExpressionDetector.stateAt glareRun 11) =
     ({| ExpressionDetector.expression := neutral;
         ExpressionDetector.confidence := 0 |},
      ExpressionDetector.stateAt glareRun 11)) /\
  (current (GestureDetector.stateAt fistRun 11) = fist /\
   GestureDetector.analyze (someTime + 363) []
       (GestureDetector.stateAt fistRun 11) =
     ({| GestureDetector.gesture := none; GestureDetector.confidence := 0 |},
      GestureDetector.stateAt fistRun 11)).
Proof.
  split; (split; [by vm_compute|]).
  - apply (proj1 short_landmarks_frame). simpl. lia.
  - apply (proj2 short_landmarks_frame). simpl. lia.
Defined.

(** C6: [reset] puts back exactly the field values of a new detector (empty
    history, no pending candidate, both timestamps 0, the default category),
    so any sequence of calls after it returns what it returns on a new
    detector and leaves the same state. *)
Theorem reset_as_fresh :
  (forall (st : ExpressionDetector.state) calls,
     ExpressionDetector.reset st =
       {| history := []; lastTime := 0; current := neutral;
          holdStartTime := 0; pending := None |} /\
     ExpressionDetector.results calls (ExpressionDetector.reset st) =
       ExpressionDetector.results calls ExpressionDetector.fresh /\
     ExpressionDetector.stateAfter calls (ExpressionDetector.reset st) =
       ExpressionDetector.stateAfter calls ExpressionDetector.fresh) /\
  (forall (st : GestureDetector.state) calls,
     GestureDetector.reset st =
       {| history := []; lastTime := 0; current := none;
          holdStartTime := 0; pending := None |} /\
     GestureDetector.results calls (GestureDetector.reset st) =
       GestureDetector.results calls GestureDetector.fresh /\
     GestureDetector.stateAfter calls (GestureDetector.reset st) =
       GestureDetector.stateAfter calls GestureDetector.fresh).
Proof.
  split; intros st calls.
  - unfold ExpressionDetector.reset, ExpressionDetector.fresh.
    by rewrite reset_fresh.
  - unfold GestureDetector.reset, GestureDetector.fresh.
    by rewrite reset_fresh.
Qed.

(** The history after a stabilised frame is the old one with the raw
    category pushed. *)
Lemma history_stabilize {C : Type} `{EqDecision C} now (raw : C) st :
  history (stabilize now raw st) = pushHistory raw (history st).
Proof.
  unfold stabilize.
  destruct (smoothed (pushHistory raw (history st))) as [sm|]; [|done].
  match goal with |- context [transition now sm ?s] =>
    destruct (transition_cases now sm s) as [Hh _] end.
  exact Hh.
Qed.

(** C4 fails on [detectDisgust], whose confidence [1 - lipNoseDistance / 0.03]
    is not clamped: on a face whose nose tip lies below the upper lip the
    result of [analyze] carries a confidence above 14. *)
Theorem disgust_confidence_above_one :
  forall now,
    (468 <= length disgustFace)%nat /\
    ExpressionDetector.classify disgustFace = (disgust, 14.333333333333334%float) /\
    ExpressionDetector.confidence
      (fst (ExpressionDetector.analyze now disgustFace ExpressionDetector.fresh))
      = 14.333333333333334%float /\
    PrimFloat.ltb 1
      (ExpressionDetector.confidence
         (fst (ExpressionDetector.analyze now disgustFace ExpressionDetector.fresh)))
      = true.
Proof.
  intros now.
  assert (Hlen : (468 <= length disgustFace)%nat) by (vm_compute; lia).
  assert (Hcl : ExpressionDetector.classify disgustFace
                = (disgust, 14.333333333333334%float)) by (by vm_compute).
  unfold ExpressionDetector.analyze.
  rewrite ExpressionFacts.analyzeWith_long_expression by done.
  fold ExpressionDetector.classify. rewrite Hcl. simpl.
  repeat split; done.
Qed.

(** C5: the rule tables are the rules of the categories in the stated
    priority order; when the rules of two categories [a] before [b] both hold,
    the raw classification is the result of the first category whose rule
    holds, which is [a] or comes before [a] and is never [b]; the rules after
    the first match do not affect it; with no match it is the default with
    confidence 0.  This raw category is what [analyze] pushes on the history,
    and its confidence is what [analyze] returns. *)
Theorem priority_order_absolute :
  (ExpressionDetector.rules = ExpressionDetector.ruleOf <$> ExpressionDetector.priority /\
   (forall landmarks a b,
      ExpressionDetector.before a b ->
      is_Some (ExpressionDetector.ruleOf a landmarks) -> is_Some (ExpressionDetector.ruleOf b landmarks) ->
      exists g r,
        ExpressionDetector.ruleOf g landmarks = Some r /\ ExpressionDetector.expression r = g /\
        ExpressionDetector.classify landmarks = (g, ExpressionDetector.confidence r) /\
        (g = a \/ ExpressionDetector.before g a) /\ g <> b /\
        forall c, ExpressionDetector.before c g -> ExpressionDetector.ruleOf c landmarks = None) /\
   (forall pre d post landmarks r,
      Forall (fun p => p landmarks = None) pre -> d landmarks = Some r ->
      ExpressionDetector.classifyWith (pre ++ d :: post) landmarks =
        (ExpressionDetector.expression r, ExpressionDetector.confidence r)) /\
   (forall landmarks,
      ExpressionDetector.matching landmarks = [] ->
      ExpressionDetector.classify landmarks = (neutral, 0%float)) /\
   (forall now landmarks (st : ExpressionDetector.state),
      (468 <= length landmarks)%nat ->
      history (snd (ExpressionDetector.analyze now landmarks st)) =
        pushHistory (fst (ExpressionDetector.classify landmarks)) (history st) /\
      ExpressionDetector.confidence (fst (ExpressionDetector.analyze now landmarks st)) =
        snd (ExpressionDetector.classify landmarks))) /\
  (GestureDetector.rules = GestureDetector.ruleOf <$> GestureDetector.priority /\
   (forall landmarks a b,
      GestureDetector.before a b ->
      is_Some (GestureDetector.ruleOf a landmarks) -> is_Some (GestureDetector.ruleOf b landmarks) ->
      exists g r,
        GestureDetector.ruleOf g landmarks = Some r /\ GestureDetector.gesture r = g /\
        GestureDetector.classify landmarks = (g, GestureDetector.confidence r) /\
        (g = a \/ GestureDetector.before g a) /\ g <> b /\
        forall c, GestureDetector.before c g -> GestureDetector.ruleOf c landmarks = None) /\
   (forall pre d post landmarks r,
      Forall (fun p => p landmarks = None) pre -> d landmarks = Some r ->
      GestureDetector.classifyWith (pre ++ d :: post) landmarks =
        (GestureDetector.gesture r, GestureDetector.confidence r)) /\
   (forall landmarks,
      GestureDetector.matching landmarks = [] ->
      GestureDetector.classify landmarks = (none, 0%float)) /\
   (forall now landmarks (st : GestureDetector.state),
      (21 <= length landmarks)%nat ->
      history (snd (GestureDetector.analyze now landmarks st)) =
        pushHistory (fst (GestureDetector.classify landmarks)) (history st) /\
      GestureDetector.confidence (fst (GestureDetector.analyze now landmarks st)) =
        snd (GestureDetector.classify landmarks))).
Proof.
  split.
  - split; [reflexivity|]. split; [|split; [|split]].
    + intros landmarks a b (i & j & Hi & Hj & Hij) Ha Hb.
      destruct (ExpressionFacts.classify_earliest_expression _ landmarks i a Hi Ha)
        as (i0 & g & r & Hle & Hg & Hr & Hcl & Hmin).
      exists g, r. split; [done|]. split.
      { by apply ExpressionFacts.ruleOf_category_expression in Hr. }
      split; [done|]. split.
      { destruct (decide (i0 = i)) as [->|Hne]; [left; congruence|].
        right. exists i0, i. split; [done|]. split; [done|]. lia. }
      split.
      { intros ->.
        pose proof (NoDup_lookup _ _ _ _ ExpressionFacts.priority_NoDup_expression Hg Hj). lia. }
      intros c (i' & j' & Hi' & Hj' & Hlt).
      pose proof (NoDup_lookup _ _ _ _ ExpressionFacts.priority_NoDup_expression Hg Hj') as ->.
      by apply (Hmin i').
    + intros pre d post landmarks r Hpre Hd.
      rewrite ExpressionFacts.classifyWith_skip_expression by done.
      by apply ExpressionFacts.classifyWith_hit_expression.
    + apply ExpressionFacts.classify_none_expression.
    + intros now landmarks st Hlen. unfold ExpressionDetector.analyze.
      rewrite ExpressionFacts.analyzeWith_long_expression by done. simpl.
      split; [|done]. apply history_stabilize.
  - split; [reflexivity|]. split; [|split; [|split]].
    + intros landmarks a b (i & j & Hi & Hj & Hij) Ha Hb.
      destruct (GestureFacts.classify_earliest_gesture _ landmarks i a Hi Ha)
        as (i0 & g & r & Hle & Hg & Hr & Hcl & Hmin).
      exists g, r. split; [done|]. split.
      { by apply GestureFacts.ruleOf_category_gesture in Hr. }
      split; [done|]. split.
      { destruct (decide (i0 = i)) as [->|Hne]; [left; congruence|].
        right. exists i0, i. split; [done|]. split; [done|]. lia. }
      split.
      { intros ->.
        pose proof (NoDup_lookup _ _ _ _ GestureFacts.priority_NoDup_gesture Hg Hj). lia. }
      intros c (i' & j' & Hi' & Hj' & Hlt).
      pose proof (NoDup_lookup _ _ _ _ GestureFacts.priority_NoDup_gesture Hg Hj') as ->.
      by apply (Hmin i').
    + intros pre d post landmarks r Hpre Hd.
      rewrite GestureFacts.classifyWith_skip_gesture by done.
      by apply GestureFacts.classifyWith_hit_gesture.
    + apply GestureFacts.classify_none_gesture.
    + intros now landmarks st Hlen. unfold GestureDetector.analyze.
      rewrite GestureFacts.analyzeWith_long_gesture by done. simpl.
      split; [|done]. apply history_stabilize.
Qed.

(** The flat face satisfies [glare] and [disgust] and is classified [glare];
    [okWaveHand] satisfies [ok] and [wave] and is classified [ok]. *)
Lemma priority_order_absolute_witness :
  (exists g r,
     ExpressionDetector.ruleOf g (base 478) = Some r /\
     ExpressionDetector.expression r = g /\
     ExpressionDetector.classify (base 478) = (g, ExpressionDetector.confidence r) /\
     (g = glare \/ ExpressionDetector.before g glare) /\ g <> disgust /\
     forall c, ExpressionDetector.before c g ->
       ExpressionDetector.ruleOf c (base 478) = None) /\
  (exists g r,
     GestureDetector.ruleOf g okWaveHand = Some r /\
     GestureDetector.gesture r = g /\
     GestureDetector.classify okWaveHand = (g, GestureDetector.confidence r) /\
     (g = ok \/ GestureDetector.before g ok) /\ g <> wave /\
     forall c, GestureDetector.before c g ->
       GestureDetector.ruleOf c okWaveHand = None).
Proof.
  split.
  - apply (proj1 (proj2 (proj1 priority_order_absolute))).
    + exists 7%nat, 12%nat. repeat split; lia.
    + vm_compute. by eexists.
    + vm_compute. by eexists.
  - apply (proj1 (proj2 (proj2 priority_order_absolute))).
    + exists 4%nat, 7%nat. repeat split; lia.
    + vm_compute. by eexists.
    + vm_compute. by eexists.
Defined.

Lemma HoldRespected_ext {C : Type} (nows : list Z) (sts sts' : nat -> state C) :
  (forall i, sts i = sts' i) -> HoldRespected nows sts -> HoldRespected nows sts'.
Proof.
  intros Heq Hh k now Hk Hsw. unfold switchAt in Hsw.
  rewrite <- !Heq in Hsw.
  destruct (Hh k now Hk Hsw) as (j & nowj & H1 & H2 & H3 & H4 & H5 & H6).
  exists j, nowj. rewrite <- !Heq. repeat split; try done.
  intros i Hi. rewrite <- Heq. by apply H4.
Qed.

Lemma DebounceRespected_ext {C : Type} (nows : list Z) (sts sts' : nat -> state C) :
  (forall i, sts i = sts' i) -> DebounceRespected nows sts ->
  DebounceRespected nows sts'.
Proof.
  intros Heq Hd k' k now' now Hlt Hk' Hk Hsw' Hsw. unfold switchAt in *.
  rewrite <- !Heq in Hsw, Hsw'. by apply (Hd k' k now' now).
Qed.

(** C2: in every sequence of calls on a new detector, a call changes
    [current] only to a category that became the pending candidate at an
    earlier call, has been pending at every call since, and whose hold timer
    (the time of that earlier call) is at least [holdTime] old; and any two
    calls that change [current] are at least [debounce] apart. *)
Theorem hold_and_debounce :
  (forall calls : list ExpressionDetector.call,
     HoldRespected (fst <$> calls) (ExpressionDetector.stateAt calls) /\
     DebounceRespected (fst <$> calls) (ExpressionDetector.stateAt calls)) /\
  (forall calls : list GestureDetector.call,
     HoldRespected (fst <$> calls) (GestureDetector.stateAt calls) /\
     DebounceRespected (fst <$> calls) (GestureDetector.stateAt calls)).
Proof.
  split; intros calls.
  - rewrite <- ExpressionFacts.event_times_expression. split.
    + eapply HoldRespected_ext; [|apply (hold_respected neutral)].
      intros i. symmetry. apply ExpressionFacts.stateAt_after_expression.
    + eapply DebounceRespected_ext; [|apply (debounce_respected neutral)].
      intros i. symmetry. apply ExpressionFacts.stateAt_after_expression.
  - rewrite <- GestureFacts.event_times_gesture. split.
    + eapply HoldRespected_ext; [|apply (hold_respected none)].
      intros i. symmetry. apply GestureFacts.stateAt_after_gesture.
    + eapply DebounceRespected_ext; [|apply (debounce_respected none)].
      intros i. symmetry. apply GestureFacts.stateAt_after_gesture.
Qed.

(** In [fistPeaceRun] call 10 switches to [fist] and call 26 to [peace]: the
    first after a hold of at least 300 ms, the two 528 ms apart. *)
Lemma hold_and_debounce_witness :
  (exists j nowj, (j < 10)%nat /\ (fst <$> fistPeaceRun) !! j = Some nowj /\
     pending (GestureDetector.stateAt fistPeaceRun j)
       <> Some (current (GestureDetector.stateAt fistPeaceRun 11)) /\
     (forall i, (j < i <= 10)%nat ->
        pending (GestureDetector.stateAt fistPeaceRun i)
          = Some (current (GestureDetector.stateAt fistPeaceRun 11))) /\
     holdStartTime (GestureDetector.stateAt fistPeaceRun 10) = nowj /\
     CONFIG.transitions.holdTime <= (someTime + 330) - nowj) /\
  CONFIG.transitions.debounce <= (someTime + 858) - (someTime + 330).
Proof.
  split.
  - apply (proj1 (proj2 hold_and_debounce fistPeaceRun) 10%nat (someTime + 330)).
    + reflexivity.
    + by vm_compute.
  - apply (proj2 (proj2 hold_and_debounce fistPeaceRun) 10%nat 26%nat).
    + lia.
    + reflexivity.
    + reflexivity.
    + by vm_compute.
    + by vm_compute.
Defined.

(** *** Symbolic execution of the stabiliser *)

Lemma stabilize_step {C : Type} `{EqDecision C} now (raw : C) st h sm :
  pushHistory raw (history st) = h -> smoothed h = Some sm ->
  stabilize now raw st =
    transition now sm
      {| history := h; lastTime := lastTime st; current := current st;
         holdStartTime := holdStartTime st; pending := pending st |}.
Proof. intros Hh Hs. unfold stabilize. by rewrite Hh, Hs. Qed.

Lemma transition_new {C : Type} `{EqDecision C} now (sm : C) st :
  sm <> current st -> pending st <> Some sm ->
  transition now sm st =
    {| history := history st; lastTime := lastTime st; current := current st;
       holdStartTime := now; pending := Some sm |}.
Proof.
  intros Hc Hp. unfold transition.
  destruct (decide (sm <> current st)); [|done].
  by destruct (decide (pending st <> Some sm)).
Qed.

Lemma transition_wait {C : Type} `{EqDecision C} now (sm : C) st :
  sm <> current st -> pending st = Some sm ->
  now - holdStartTime st < CONFIG.transitions.holdTime ->
  transition now sm st = st.
Proof.
  intros Hc Hp Hh. unfold transition.
  destruct (decide (sm <> current st)); [|done].
  destruct (decide (pending st <> Some sm)); [done|].
  by destruct (Z.leb_spec CONFIG.transitions.holdTime (now - holdStartTime st)); [lia|].
Qed.






(** The bound on the spacing is sharp: 34 ms apart, the tenth call finds
    [fist] pending for 306 ms and commits it. *)
Lemma alternating_34ms_commits_fist :
  current (GestureDetector.stateAt
             (frames someTime 34 (alternate 20 fistHand peaceHand)) 10) = fist.
Proof. by vm_compute. Qed.

End Claims.

(** ** The meme pool *)

Module MemePoolFacts.
Import MemePool.
#[local] Open Scope nat_scope.

Lemma pick_is_Some r (arr : list string) :
  arr <> [] -> exists m, pick r arr = Some m /\ m ∈ arr.
Proof.
  intros Hne. unfold pick.
  assert (Hlt : (r `mod` length arr < length arr)%nat).
  { apply Nat.mod_upper_bound. by destruct arr. }
  destruct (lookup_lt_is_Some_2 _ _ Hlt) as [m Hm].
  exists m. split; [done|]. by eapply list_elem_of_lookup_2.
Qed.

Lemma size_list_to_set_le (l : list string) :
  size (list_to_set l : gset string) <= length l.
Proof.
  induction l as [|a l IH].
  - by rewrite list_to_set_nil, size_empty.
  - rewrite list_to_set_cons, size_union_alt, size_singleton. simpl.
    assert (size (list_to_set l ∖ {[a]} : gset string)
            <= size (list_to_set l : gset string)); [|lia].
    apply subseteq_size. intros b Hb. apply elem_of_difference in Hb. tauto.
Qed.

(** With four distinct assets and at most three recent ones, some asset of
    the pool is not recent. *)
Lemma available_not_empty (pool recent : list string) :
  4 <= size (list_to_set pool : gset string) -> length recent <= 3 ->
  filter (λ m, m ∉ recent) pool <> [].
Proof.
  intros Hsize Hrec Hnil.
  assert (Hsub : (list_to_set pool : gset string) ⊆ list_to_set recent).
  { intros a Ha. apply elem_of_list_to_set in Ha. apply elem_of_list_to_set.
    destruct (decide (a ∈ recent)) as [|Hn]; [done|].
    by destruct (filter_nil_not_elem_of _ _ a Hnil Hn). }
  apply subseteq_size in Hsub.
  pose proof (size_list_to_set_le recent). lia.
Qed.

(** A call for a category whose pool is not empty. *)
Lemma getRandomMeme_hit r c st pool :
  memePool st !! c = Some pool -> pool <> [] ->
  exists m, m ∈ pool /\
    (filter (λ a, a ∉ default [] (recentMemes st !! c)) pool <> [] ->
     m ∉ default [] (recentMemes st !! c)) /\
    getRandomMeme r c st =
      (Some m,
       {| memePool := memePool st;
          recentMemes :=
            <[c := if (RECENT_HISTORY_SIZE
                       <? length (default [] (recentMemes st !! c) ++ [m]))%nat
                   then tail (default [] (recentMemes st !! c) ++ [m])
                   else default [] (recentMemes st !! c) ++ [m]]>
              (recentMemes st) |}).
Proof.
  intros Hpool Hne. unfold getRandomMeme. rewrite Hpool.
  destruct pool as [|a pool]; [done|].
  set (recent := default [] (recentMemes st !! c)).
  set (full := a :: pool) in *.
  destruct (decide (length (filter (λ m, m ∉ recent) full) = 0%nat)) as [Hz|Hnz].
  - destruct (pick_is_Some r full Hne) as (m & Hm & Hin).
    exists m. split; [done|]. split.
    { intros Hf. by destruct (filter (λ m, m ∉ recent) full). }
    by rewrite Hm.
  - assert (Hf : filter (λ m, m ∉ recent) full <> []).
    { intros Hnil. by rewrite Hnil in Hnz. }
    destruct (pick_is_Some r _ Hf) as (m & Hm & Hin).
    apply list_elem_of_filter in Hin as [Hnr Hin].
    exists m. split; [done|]. split; [done|]. by rewrite Hm.
Qed.

(** A call for a category whose pool is empty or missing. *)
Lemma getRandomMeme_miss r c st :
  default [] (memePool st !! c) = [] ->
  getRandomMeme r c st =
    (match default [] (memePool st !! "neutral") with
     | [] => None
     | neutralPool => pick r neutralPool
     end, st).
Proof.
  intros Hc. unfold getRandomMeme.
  destruct (memePool st !! c) as [[|a pool]|]; [|done|];
    by destruct (memePool st !! "neutral") as [[|b np]|].
Qed.

Lemma getRandomMeme_pool r c st : memePool (snd (getRandomMeme r c st)) = memePool st.
Proof.
  destruct (memePool st !! c) as [pool|] eqn:Hc.
  - destruct pool as [|a pool].
    + rewrite getRandomMeme_miss; [done|by rewrite Hc].
    + destruct (getRandomMeme_hit r c st _ Hc) as (m & _ & _ & ->); done.
  - rewrite getRandomMeme_miss; [done|by rewrite Hc].
Qed.

Lemma getRandomMeme_other r c c' st :
  c' <> c ->
  recentMemes (snd (getRandomMeme r c' st)) !! c = recentMemes st !! c.
Proof.
  intros Hne.
  destruct (memePool st !! c') as [pool|] eqn:Hc.
  - destruct pool as [|a pool].
    + rewrite getRandomMeme_miss; [done|by rewrite Hc].
    + destruct (getRandomMeme_hit r c' st _ Hc) as (m & _ & _ & ->); [done|].
      simpl. by rewrite lookup_insert_ne.
  - rewrite getRandomMeme_miss; [done|by rewrite Hc].
Qed.

Lemma getRandomMeme_bounded r c st : bounded st -> bounded (snd (getRandomMeme r c st)).
Proof.
  intros Hb c'. destruct (decide (c = c')) as [<-|Hne].
  - destruct (memePool st !! c) as [pool|] eqn:Hc.
    + destruct pool as [|a pool].
      * rewrite getRandomMeme_miss; [apply Hb|by rewrite Hc].
      * destruct (getRandomMeme_hit r c st _ Hc) as (m & _ & _ & ->); [done|].
        simpl. rewrite lookup_insert_eq. simpl.
        specialize (Hb c). unfold RECENT_HISTORY_SIZE in *.
        destruct (Nat.ltb_spec 3 (length (default [] (recentMemes st !! c) ++ [m])))
          as [Hlt|Hge]; [|done].
        destruct (default [] (recentMemes st !! c)) as [|b l]; simpl in *; [lia|].
        rewrite length_app in *. simpl in *. lia.
    + rewrite getRandomMeme_miss; [apply Hb|by rewrite Hc].
  - rewrite getRandomMeme_other by done. apply Hb.
Qed.

Lemma run_bounded calls st : bounded st -> bounded (snd (run calls st)).
Proof.
  revert st. induction calls as [|[c r] calls IH]; intros st Hb; [done|].
  simpl. pose proof (getRandomMeme_bounded r c st Hb) as Hb'.
  destruct (getRandomMeme r c st) as [res st1]. simpl in Hb'.
  specialize (IH st1 Hb'). by destruct (run calls st1).
Qed.

(** Pushing on a buffer that holds the last three picks. *)
Lemma push_last3 (prev : list string) (m : string) :
  (if (RECENT_HISTORY_SIZE <? length (last3 prev ++ [m]))%nat
   then tail (last3 prev ++ [m]) else last3 prev ++ [m])
  = last3 (prev ++ [m]).
Proof.
  unfold RECENT_HISTORY_SIZE. rewrite !length_app, length_drop. simpl.
  destruct (Nat.ltb_spec 3 (length prev - (length prev - 3) + 1)) as [Hlt|Hge].
  - assert (Hl : 3 <= length prev) by lia.
    replace (length prev + 1 - 3) with (length prev - 3 + 1) by lia.
    rewrite <- (drop_drop (prev ++ [m]) 1 (length prev - 3)) .
    rewrite drop_app_le by lia. by destruct (drop (length prev - 3) prev ++ [m]).
  - replace (length prev - 3) with 0 by lia.
    replace (length prev + 1 - 3) with 0 by lia. done.
Qed.

Lemma spaced_snoc (prev : list string) (m : string) :
  spaced prev -> m ∉ last3 prev -> spaced (prev ++ [m]).
Proof.
  intros Hs Hm i j a Hij Hi Hj.
  assert (Hjl : j < length (prev ++ [m])) by (by eapply lookup_lt_Some).
  rewrite length_app in Hjl. simpl in Hjl.
  destruct (decide (j < length prev)) as [Hlt|Hge].
  - rewrite lookup_app_l in Hi, Hj by lia. by apply (Hs i j a).
  - assert (j = length prev) as -> by lia.
    rewrite list_lookup_middle in Hj by done. injection Hj as <-.
    rewrite lookup_app_l in Hi by lia.
    apply Hm. apply (list_elem_of_lookup_2 _ (i - (length prev - 3))).
    rewrite lookup_drop. rewrite <- Hi. f_equal. lia.
Qed.

Lemma resultsFor_cons_same c res log :
  resultsFor c ((c, res) :: log) = res :: resultsFor c log.
Proof. unfold resultsFor. rewrite filter_cons. simpl. by destruct (decide (c = c)). Qed.

Lemma resultsFor_cons_other c c' res log :
  c' <> c -> resultsFor c ((c', res) :: log) = resultsFor c log.
Proof.
  intros Hne. unfold resultsFor. rewrite filter_cons. simpl.
  by destruct (decide (c' = c)).
Qed.

Lemma run_cons c r calls st :
  run ((c, r) :: calls) st =
    ((c, fst (getRandomMeme r c st)) :: fst (run calls (snd (getRandomMeme r c st))),
     snd (run calls (snd (getRandomMeme r c st)))).
Proof.
  simpl. destruct (getRandomMeme r c st) as [res st1]. simpl.
  by destruct (run calls st1).
Qed.

(** The picks for a category with four distinct assets stay spaced, and its
    buffer holds the last three of them. *)
Lemma run_spaced c assets calls st prev :
  memePool st !! c = Some assets ->
  4 <= size (list_to_set assets : gset string) ->
  default [] (recentMemes st !! c) = last3 prev ->
  spaced prev ->
  exists ids,
    resultsFor c (fst (run calls st)) = Some <$> ids /\
    spaced (prev ++ ids) /\
    default [] (recentMemes (snd (run calls st)) !! c) = last3 (prev ++ ids).
Proof.
  intros Hpool Hsize. revert st prev Hpool.
  induction calls as [|[c' r] calls IH]; intros st prev Hpool Hrec Hsp.
  { exists []. by rewrite app_nil_r. }
  rewrite run_cons. simpl.
  destruct (decide (c' = c)) as [->|Hne].
  - assert (Hne : assets <> []).
    { intros ->. rewrite list_to_set_nil, size_empty in Hsize. lia. }
    destruct (getRandomMeme_hit r c st assets Hpool Hne) as (m & Hin & Hfresh & Heq).
    rewrite Heq. simpl.
    assert (Hm : m ∉ last3 prev).
    { rewrite <- Hrec. apply Hfresh. apply available_not_empty; [done|].
      rewrite Hrec, length_drop. lia. }
    destruct (IH {| memePool := memePool st;
                    recentMemes :=
                      <[c := if (RECENT_HISTORY_SIZE
                                 <? length (default [] (recentMemes st !! c) ++ [m]))
                             then tail (default [] (recentMemes st !! c) ++ [m])
                             else default [] (recentMemes st !! c) ++ [m]]>
                        (recentMemes st) |} (prev ++ [m]))
      as (ids & Hres & Hsp' & Hbuf).
    + done.
    + simpl. rewrite lookup_insert_eq. simpl. rewrite Hrec. apply push_last3.
    + by apply spaced_snoc.
    + exists (m :: ids). rewrite resultsFor_cons_same, Hres.
      rewrite <- app_assoc in Hsp', Hbuf. done.
  - destruct (IH (snd (getRandomMeme r c' st)) prev) as (ids & Hres & Hsp' & Hbuf).
    + by rewrite getRandomMeme_pool.
    + by rewrite getRandomMeme_other.
    + done.
    + exists ids. by rewrite resultsFor_cons_other.
Qed.

(** C7 as stated fails when the four members of a pool are not four
    distinct assets: with two assets listed twice the third call finds both
    in the buffer, falls back to the whole pool and can repeat the second
    pick. *)
Lemma four_members_repeat_counterexample :
  ~ (forall (pool : gmap string (list string)) c assets calls ids,
       pool !! c = Some assets -> 4 <= length assets ->
       resultsFor c (fst (run calls (loaded pool))) = Some <$> ids ->
       forall i j a, i < j <= i + 2 -> ids !! i = Some a -> ids !! j <> Some a).
Proof.
  intros Hclaim.
  apply (Hclaim Samples.doubledHappy "happy"
           ["grin.png"; "laugh.png"; "grin.png"; "laugh.png"]
           [("happy", 0); ("happy", 0); ("happy", 1)]
           ["grin.png"; "laugh.png"; "laugh.png"]
           ltac:(by vm_compute) ltac:(simpl; lia) ltac:(by vm_compute)
           1 2 "laugh.png" ltac:(lia)); reflexivity.
Qed.

(** C7 (amended): for a category whose pool holds at least four distinct
    assets, in every sequence of calls from the loaded state and for every
    outcome of the draws, every call for the category returns an asset, no
    asset is returned twice within three consecutive calls for it, its
    buffer is the last three assets returned for it (oldest first), and no
    buffer ever holds more than three entries. *)
Theorem no_repeat_within_three
    (pool : gmap string (list string)) (c : string) (assets : list string)
    (calls : list (string * nat)) :
  pool !! c = Some assets ->
  4 <= size (list_to_set assets : gset string) ->
  exists ids,
    resultsFor c (fst (run calls (loaded pool))) = Some <$> ids /\
    (forall i j a, i < j <= i + 2 -> ids !! i = Some a -> ids !! j <> Some a) /\
    default [] (recentMemes (snd (run calls (loaded pool))) !! c)
      = drop (length ids - 3) ids /\
    (forall c', length (default [] (recentMemes (snd (run calls (loaded pool))) !! c'))
                <= RECENT_HISTORY_SIZE).
Proof.
  intros Hpool Hsize.
  destruct (run_spaced c assets calls (loaded pool) [] Hpool Hsize)
    as (ids & Hres & Hsp & Hbuf).
  - done.
  - intros i j a _ Hi. done.
  - exists ids. split; [done|]. split; [exact Hsp|]. split; [exact Hbuf|].
    apply run_bounded. intros c'. simpl. rewrite lookup_empty. simpl. lia.
Qed.

Lemma no_repeat_within_three_witness :
  exists ids,
    resultsFor "happy"
      (fst (run [("happy", 7); ("neutral", 1); ("happy", 7); ("happy", 7);
                 ("happy", 7); ("happy", 0)] (loaded Samples.fiveHappy)))
      = Some <$> ids /\
    (forall i j a, i < j <= i + 2 -> ids !! i = Some a -> ids !! j <> Some a) /\
    default [] (recentMemes
                  (snd (run [("happy", 7); ("neutral", 1); ("happy", 7);
                             ("happy", 7); ("happy", 7); ("happy", 0)]
                          (loaded Samples.fiveHappy))) !! "happy")
      = drop (length ids - 3) ids /\
    (forall c', length (default [] (recentMemes
                  (snd (run [("happy", 7); ("neutral", 1); ("happy", 7);
                             ("happy", 7); ("happy", 7); ("happy", 0)]
                          (loaded Samples.fiveHappy))) !! c'))
                <= RECENT_HISTORY_SIZE).
Proof.
  apply (no_repeat_within_three Samples.fiveHappy "happy"
           ["a.png"; "b.png"; "c.png"; "d.png"; "e.png"]).
  - by vm_compute.
  - vm_compute. lia.
Defined.

(** C8: for a category whose list is empty, [getRandomMeme] returns an asset
    of the ["neutral"] list when that list is not empty, and [null] when it
    is empty too. *)
Theorem empty_category_falls_back (r : nat) (type : string) (st : store) :
  default [] (memePool st !! type) = [] ->
  (default [] (memePool st !! "neutral") <> [] ->
   exists m, fst (getRandomMeme r type st) = Some m /\
             m ∈ default [] (memePool st !! "neutral")) /\
  (default [] (memePool st !! "neutral") = [] ->
   fst (getRandomMeme r type st) = None).
Proof.
  intros Hempty. rewrite getRandomMeme_miss by done. simpl. split.
  - intros Hne. destruct (pick_is_Some r _ Hne) as (m & Hm & Hin).
    exists m. split; [|done].
    by destruct (default [] (memePool st !! "neutral")).
  - by intros ->.
Qed.

Lemma empty_category_falls_back_witness :
  (exists m, fst (getRandomMeme 6 "wave" (loaded Samples.neutralOnly)) = Some m /\
             m ∈ default [] (Samples.neutralOnly !! "neutral")) /\
  fst (getRandomMeme 6 "wave" (loaded declaredPool)) = None.
Proof.
  split.
  - apply (proj1 (empty_category_falls_back 6 "wave" (loaded Samples.neutralOnly)
                    ltac:(by vm_compute))).
    by vm_compute.
  - apply (proj2 (empty_category_falls_back 6 "wave" (loaded declaredPool)
                    ltac:(by vm_compute))).
    by vm_compute.
Defined.

(** C10: a call that takes the empty-pool fallback returns the asset of the
    whole ["neutral"] list at the drawn index (every asset of the list, recent
    or not, is returned for some draw), does not depend on any buffer, and
    leaves the store, hence every buffer, as it was; the same draw twice in a
    row returns the same asset twice. *)
Theorem fallback_ignores_buffers (r : nat) (type : string) (st : store) :
  default [] (memePool st !! type) = [] ->
  snd (getRandomMeme r type st) = st /\
  fst (getRandomMeme r type st)
    = match default [] (memePool st !! "neutral") with
      | [] => None
      | neutralPool => neutralPool !! (r `mod` length neutralPool)
      end /\
  (forall i m, default [] (memePool st !! "neutral") !! i = Some m ->
     fst (getRandomMeme i type st) = Some m) /\
  (forall buffers,
     getRandomMeme r type {| memePool := memePool st; recentMemes := buffers |}
     = (fst (getRandomMeme r type st),
        {| memePool := memePool st; recentMemes := buffers |})) /\
  fst (getRandomMeme r type (snd (getRandomMeme r type st)))
    = fst (getRandomMeme r type st).
Proof.
  intros Hempty. rewrite !getRandomMeme_miss by done. simpl.
  split; [done|]. split; [done|]. split; [|split].
  - intros i m Hi. rewrite getRandomMeme_miss by done. simpl.
    assert (Hlt : i < length (default [] (memePool st !! "neutral")))
      by (by eapply lookup_lt_Some).
    destruct (default [] (memePool st !! "neutral")) as [|a np] eqn:Hnp; [done|].
    unfold pick. by rewrite Nat.mod_small.
  - intros buffers. by rewrite getRandomMeme_miss.
  - done.
Qed.

(** ["larry.png"] is in the buffer of ["neutral"] and is still returned by a
    fallback call, which changes nothing. *)
Lemma fallback_ignores_buffers_witness :
  snd (getRandomMeme 4 "wave"
         (snd (getRandomMeme 0 "neutral" (loaded Samples.neutralOnly))))
    = snd (getRandomMeme 0 "neutral" (loaded Samples.neutralOnly)) /\
  fst (getRandomMeme 4 "wave"
         (snd (getRandomMeme 0 "neutral" (loaded Samples.neutralOnly))))
    = Some "larry.png" /\
  recentMemes (snd (getRandomMeme 0 "neutral" (loaded Samples.neutralOnly)))
    !! "neutral" = Some ["larry.png"].
Proof.
  pose proof (fallback_ignores_buffers 4 "wave"
                (snd (getRandomMeme 0 "neutral" (loaded Samples.neutralOnly)))
                ltac:(by vm_compute)) as (Hst & Hres & _).
  split; [exact Hst|]. split; [|by vm_compute].
  rewrite Hres. by vm_compute.
Defined.

End MemePoolFacts.

(** ** The vote and the history window *)

Section WindowFacts.

Context {C : Type} `{EqDecision C}.
Implicit Types (h : list C) (g : C).

Import Stabilizer Window.

Lemma occurrences_snoc g h a :
  occurrences g (h ++ [a]) =
    (occurrences g h + (if decide (a = g) then 1 else 0))%nat.
Proof.
  unfold occurrences. rewrite filter_app, length_app, filter_cons, filter_nil.
  by destruct (decide (a = g)).
Qed.

Lemma occurrences_not_elem g h : g ∉ h -> occurrences g h = 0%nat.
Proof.
  intros Hg. unfold occurrences.
  destruct (filter (fun a => a = g) h) as [|a l] eqn:Hf; [done|].
  assert (Ha : a ∈ filter (fun a => a = g) h) by (rewrite Hf; left).
  apply list_elem_of_filter in Ha as [-> Ha]. done.
Qed.

Lemma occurrences_elem g h : g ∈ h -> (0 < occurrences g h)%nat.
Proof.
  intros Hg. unfold occurrences.
  assert (Ha : g ∈ filter (fun a => a = g) h) by (by apply list_elem_of_filter).
  destruct (filter (fun a => a = g) h); [by apply not_elem_of_nil in Ha|simpl; lia].
Qed.

Lemma firstSeen_snoc h a :
  firstSeen (h ++ [a]) =
    if decide (a ∈ firstSeen h) then firstSeen h else firstSeen h ++ [a].
Proof. unfold firstSeen. by rewrite fold_left_app. Qed.

Lemma elem_of_firstSeen h g : g ∈ firstSeen h <-> g ∈ h.
Proof.
  induction h as [|a h IH] using rev_ind; [done|].
  rewrite firstSeen_snoc. destruct (decide (a ∈ firstSeen h)) as [Ha|Ha].
  - rewrite IH, elem_of_app, list_elem_of_singleton.
    split; [tauto|]. intros [?| ->]; [done|]. by apply IH.
  - rewrite !elem_of_app, IH. done.
Qed.

Lemma NoDup_firstSeen h : NoDup (firstSeen h).
Proof.
  induction h as [|a h IH] using rev_ind; [constructor|].
  rewrite firstSeen_snoc. destruct (decide (a ∈ firstSeen h)) as [Ha|Ha]; [done|].
  apply NoDup_app. split; [done|]. split; [|apply NoDup_singleton].
  intros b Hb ->%list_elem_of_singleton. done.
Qed.

(** A key that comes earlier in [counts] occurs in the history before the
    first occurrence of any later key. *)
Lemma firstSeen_order h (i j : nat) a b :
  (i < j)%nat -> firstSeen h !! i = Some a -> firstSeen h !! j = Some b ->
  exists h1 h2, h = h1 ++ a :: h2 /\ b ∉ h1.
Proof.
  revert i j a b. induction h as [|c h IH] using rev_ind; intros i j a b Hij Hi Hj.
  { done. }
  rewrite firstSeen_snoc in Hi, Hj.
  destruct (decide (c ∈ firstSeen h)) as [Hc|Hc].
  - destruct (IH i j a b Hij Hi Hj) as (h1 & h2 & -> & Hb).
    exists h1, (h2 ++ [c]). by rewrite <- app_assoc.
  - assert (Hjl : (j < length (firstSeen h ++ [c]))%nat) by (by eapply lookup_lt_Some).
    rewrite length_app in Hjl. simpl in Hjl.
    rewrite lookup_app_l in Hi by lia.
    destruct (decide (j < length (firstSeen h))%nat) as [Hlt|Hge].
    + rewrite lookup_app_l in Hj by lia.
      destruct (IH i j a b Hij Hi Hj) as (h1 & h2 & -> & Hb).
      exists h1, (h2 ++ [c]). by rewrite <- app_assoc.
    + assert (j = length (firstSeen h)) as -> by lia.
      rewrite list_lookup_middle in Hj by done. injection Hj as <-.
      assert (Ha : a ∈ h) by (apply elem_of_firstSeen; by eapply list_elem_of_lookup_2).
      apply list_elem_of_split in Ha as (h1 & h2 & ->).
      exists h1, (h2 ++ [c]). split; [by rewrite <- app_assoc|].
      intros Hin. apply Hc, elem_of_firstSeen. apply elem_of_app. by left.
Qed.

Lemma bump_fmap (c : C -> nat) (ks : list C) g :
  NoDup ks ->
  bump g ((fun k => (k, c k)) <$> ks) =
    ((fun k => (k, if decide (k = g) then S (c k) else c k)) <$> ks)
    ++ (if decide (g ∈ ks) then [] else [(g, 1%nat)]).
Proof.
  induction 1 as [|k ks Hk Hnd IH]; [done|].
  rewrite !fmap_cons. cbn [bump]. destruct (decide (k = g)) as [->|Hne].
  - rewrite decide_True by left. rewrite app_nil_r. f_equal.
    apply list_fmap_ext. intros i k Hi. destruct (decide (k = g)) as [->|]; [|done].
    by apply list_elem_of_lookup_2 in Hi.
  - rewrite IH. cbn. f_equal.
    destruct (decide (g ∈ ks)) as [Hg|Hg].
    + rewrite decide_True by (by right). done.
    + rewrite decide_False; [done|]. intros [->|?]%elem_of_cons; done.
Qed.

(** [counts] lists every category of the history once, in order of first
    occurrence, with its number of occurrences. *)
Lemma tally_firstSeen h :
  tally h = (fun k => (k, occurrences k h)) <$> firstSeen h.
Proof.
  induction h as [|a h IH] using rev_ind; [done|].
  rewrite tally_snoc, IH, bump_fmap by apply NoDup_firstSeen.
  rewrite firstSeen_snoc. destruct (decide (a ∈ firstSeen h)) as [Ha|Ha].
  - rewrite app_nil_r. apply list_fmap_ext. intros i k _. f_equal.
    rewrite occurrences_snoc. destruct (decide (k = a)) as [->|Hne].
    + rewrite decide_True by done. lia.
    + rewrite decide_False by done. lia.
  - rewrite fmap_app. f_equal.
    + apply list_fmap_ext. intros i k Hi. f_equal.
      rewrite occurrences_snoc. destruct (decide (k = a)) as [->|Hne].
      * by apply list_elem_of_lookup_2 in Hi.
      * rewrite decide_False by done. lia.
    + cbn. rewrite occurrences_snoc, decide_True by done.
      rewrite occurrences_not_elem; [done|]. by rewrite <- elem_of_firstSeen.
Qed.

Lemma sortDesc_nil_inv (l : list (C * nat)) : sortDesc l = [] -> l = [].
Proof.
  destruct l as [|e l]; [done|]. cbn. intros Hs. by apply insertDesc_not_nil in Hs.
Qed.

(** The head of the sorted entries is the first entry of maximal count. *)
Lemma sortDesc_first_max (l : list (C * nat)) w rest :
  sortDesc l = w :: rest ->
  exists i, l !! i = Some w /\
    (forall j e, l !! j = Some e -> (snd e <= snd w)%nat) /\
    (forall j e, (j < i)%nat -> l !! j = Some e -> (snd e < snd w)%nat).
Proof.
  revert w rest. induction l as [|e l IH]; intros w rest Hs; [done|].
  change (sortDesc (e :: l)) with (insertDesc e (sortDesc l)) in Hs.
  destruct (sortDesc l) as [|a s] eqn:Hl.
  - apply sortDesc_nil_inv in Hl as ->. cbn in Hs. simplify_eq.
    exists 0%nat. split; [done|]. split.
    + intros [|j] e' He'; [|done]. cbn in He'. injection He' as <-. lia.
    + intros j e' Hj. lia.
  - destruct (IH a s eq_refl) as (i & Hi & Hmax & Hfirst).
    cbn in Hs. destruct (Nat.leb_spec (snd a) (snd e)) as [Hle|Hgt]; cbn in Hs.
    + simplify_eq. exists 0%nat. split; [done|]. split.
      * intros [|j] e' He'; cbn in He'; [injection He' as <-; lia|].
        specialize (Hmax j e' He'). lia.
      * intros j e' Hj. lia.
    + simplify_eq. exists (S i). split; [done|]. split.
      * intros [|j] e' He'; cbn in He'; [injection He' as <-; lia|].
        by apply (Hmax j).
      * intros [|j] e' Hj He'; cbn in He'; [injection He' as <-; lia|].
        apply (Hfirst j); [lia|done].
Qed.

Lemma smoothed_plurality h g :
  smoothed h = Some g ->
  g ∈ h /\
  (forall g', (occurrences g' h <= occurrences g h)%nat) /\
  (forall g', g' <> g -> occurrences g' h = occurrences g h ->
     exists h1 h2, h = h1 ++ g :: h2 /\ g' ∉ h1).
Proof.
  unfold smoothed. destruct (sortDesc (tally h)) as [|[g0 n] rest] eqn:Hs; [done|].
  intros [= ->].
  destruct (sortDesc_first_max _ _ _ Hs) as (i & Hi & Hmax & Hfirst).
  rewrite tally_firstSeen in Hi, Hmax, Hfirst.
  rewrite list_lookup_fmap in Hi.
  destruct (firstSeen h !! i) as [k|] eqn:Hk; [|done].
  cbn in Hi. injection Hi as -> <-.
  assert (Hg : g ∈ h) by (apply elem_of_firstSeen; by eapply list_elem_of_lookup_2).
  assert (Hat : forall g', g' ∈ h -> exists j,
            firstSeen h !! j = Some g' /\
            ((fun k => (k, occurrences k h)) <$> firstSeen h) !! j
              = Some (g', occurrences g' h)).
  { intros g' Hg'. apply elem_of_firstSeen, list_elem_of_lookup in Hg' as [j Hj].
    exists j. split; [done|]. by rewrite list_lookup_fmap, Hj. }
  split; [done|]. split.
  - intros g'. destruct (decide (g' ∈ h)) as [Hg'|Hg'].
    + destruct (Hat g' Hg') as (j & _ & Hj). apply (Hmax j _ Hj).
    + rewrite (occurrences_not_elem g') by done. lia.
  - intros g' Hne Heq. destruct (decide (g' ∈ h)) as [Hg'|Hg'].
    + destruct (Hat g' Hg') as (j & Hj1 & Hj2).
      destruct (decide (j < i)%nat) as [Hlt|Hge].
      { specialize (Hfirst j _ Hlt Hj2). cbn in Hfirst. lia. }
      assert (j <> i).
      { intros ->. congruence. }
      apply (firstSeen_order h i j); [lia|done|done].
    + apply list_elem_of_split in Hg as (h1 & h2 & ->).
      exists h1, h2. split; [done|]. intros Hin. apply Hg'.
      apply elem_of_app. by left.
Qed.

(** *** The window *)

Lemma pushHistory_lastWindow (l : list C) (raw : C) :
  pushHistory raw (lastWindow l) = lastWindow (l ++ [raw]).
Proof.
  unfold pushHistory, lastWindow, CONFIG.transitions.historyLength.
  rewrite !length_app, length_drop. simpl.
  destruct (Nat.ltb_spec 10 (length l - (length l - 10) + 1)) as [Hlt|Hge].
  - replace (length l + 1 - 10)%nat with (length l - 10 + 1)%nat by lia.
    rewrite <- (drop_drop (l ++ [raw]) 1 (length l - 10)).
    rewrite drop_app_le by lia. by destruct (drop (length l - 10) l ++ [raw]).
  - replace (length l - 10)%nat with 0%nat by lia.
    replace (length l + 1 - 10)%nat with 0%nat by lia. done.
Qed.

Lemma length_lastWindow (l : list C) :
  (length (lastWindow l) <= CONFIG.transitions.historyLength)%nat.
Proof.
  unfold lastWindow, CONFIG.transitions.historyLength. rewrite length_drop. lia.
Qed.

Lemma history_after (default : C) (events : list (Z * option C)) :
  history (after default events) = lastWindow (omap snd events).
Proof.
  induction events as [|[now [raw|]] events IH] using rev_ind; [done| |].
  - rewrite after_snoc, omap_app. unfold advance. cbn.
    rewrite Claims.history_stabilize, IH. apply pushHistory_lastWindow.
  - rewrite after_snoc, omap_app. unfold advance. cbn. by rewrite app_nil_r.
Qed.

(** After every call, the vote over the window is [current] exactly when no
    candidate is pending, and is the pending candidate otherwise. *)
Lemma vote_coherent (default : C) (events : list (Z * option C)) :
  (omap snd events = [] /\ after default events = fresh default) \/
  (exists v, smoothed (history (after default events)) = Some v /\
     ((pending (after default events) = None /\
       v = current (after default events)) \/
      (pending (after default events) = Some v /\
       v <> current (after default events)))).
Proof.
  induction events as [|[now [raw|]] events IH] using rev_ind; [by left| |].
  - right. rewrite after_snoc. unfold advance. cbn. unfold stabilize.
    destruct (smoothed_pushHistory raw (history (after default events))) as [sm Hsm].
    rewrite Hsm. exists sm. unfold transition. cbn.
    destruct (decide (sm <> current (after default events))) as [Hne|Heq].
    + destruct (decide (pending (after default events) <> Some sm)) as [Hp|Hp].
      * cbn. split; [done|]. by right.
      * apply dec_stable in Hp.
        destruct (CONFIG.transitions.holdTime
                  <=? now - holdStartTime (after default events));
          [destruct (CONFIG.transitions.debounce
                     <=? now - lastTime (after default events))|];
          cbn; (split; [done|]); [by left|by right|by right].
    + apply dec_stable in Heq. cbn. split; [done|]. by left.
  - rewrite after_snoc, omap_app. unfold advance. cbn. by rewrite app_nil_r.
Qed.

(** [current] is the default or a raw category of some earlier call. *)
Lemma current_provenance (default : C) (events : list (Z * option C)) :
  current (after default events) = default \/
  current (after default events) ∈ omap snd events.
Proof.
  induction events as [|e events IH] using rev_ind; [by left|].
  rewrite after_snoc, omap_app.
  destruct (advance_cases e (after default events))
    as [(Hc & _)|(g & Hp & _ & Hc & _)]; cbn in *.
  - rewrite Hc. destruct IH as [?|?]; [by left|right].
    apply elem_of_app. by left.
  - right. rewrite Hc. apply elem_of_app. left.
    destruct (vote_coherent default events) as [[_ Hf]|(v & Hv & [[Hn _]|[Hs _]])].
    + rewrite Hf in Hp. done.
    + congruence.
    + assert (v = g) as -> by congruence.
      apply smoothed_plurality in Hv as [Hin _].
      rewrite history_after in Hin. unfold lastWindow in Hin.
      by apply subseteq_drop in Hin.
Qed.

End WindowFacts.

(** ** Steady input and short bursts *)

Section SteadyFacts.

Context {C : Type} `{EqDecision C}.

Import Stabilizer Window.

Lemma tally_replicate (n : nat) (g : C) : tally (replicate (S n) g) = [(g, S n)].
Proof.
  induction n as [|n IH]; [done|].
  rewrite replicate_S_end, tally_snoc, IH. cbn. by rewrite decide_True.
Qed.

Lemma smoothed_replicate (n : nat) (g : C) : smoothed (replicate (S n) g) = Some g.
Proof. unfold smoothed. by rewrite tally_replicate. Qed.

Lemma pushHistory_replicate (n : nat) (g : C) :
  (n <= 10)%nat -> pushHistory g (replicate n g) = replicate (S n `min` 10) g.
Proof.
  intros Hn. unfold pushHistory.
  rewrite <- replicate_S_end, length_replicate.
  unfold CONFIG.transitions.historyLength.
  destruct (Nat.ltb_spec 10 (S n)) as [Hlt|Hge].
  - assert (n = 10%nat) as -> by lia. done.
  - by replace (S n `min` 10)%nat with (S n) by lia.
Qed.

(** While the same raw category [g] keeps arriving within [holdTime] of its
    first frame, the detector waits with [g] pending. *)
Lemma unanimous_wait (default g : C) (t0 : Z) (ts : list Z) :
  g <> default ->
  Forall (fun t => t - t0 < CONFIG.transitions.holdTime) ts ->
  after default ((t0, Some g) :: ((fun t => (t, Some g)) <$> ts)) =
    {| history := replicate (S (length ts) `min` 10) g; lastTime := 0;
       current := default; holdStartTime := t0; pending := Some g |}.
Proof.
  intros Hg. induction ts as [|t ts IH] using rev_ind; intros Hts.
  - unfold after. cbn [fold_left]. unfold advance. cbn [fst snd].
    rewrite (Claims.stabilize_step t0 g (fresh default) [g] g) by done.
    by rewrite Claims.transition_new.
  - apply Forall_app in Hts as [Hts Ht]. inversion Ht as [|? ? Ht' _]; subst.
    rewrite fmap_app, list_fmap_singleton, app_comm_cons, after_snoc, (IH Hts). unfold advance. cbn [fst snd].
    rewrite length_app. cbn [length].
    assert (Hpush : pushHistory g (replicate (S (length ts) `min` 10) g)
                    = replicate (S (length ts + 1) `min` 10) g).
    { rewrite pushHistory_replicate by lia. f_equal. lia. }
    assert (Hvote : smoothed (replicate (S (length ts + 1) `min` 10) g) = Some g).
    { destruct (S (length ts + 1) `min` 10)%nat as [|k] eqn:Hk; [lia|].
      apply smoothed_replicate. }
    erewrite Claims.stabilize_step; [|exact Hpush|exact Hvote]. cbn.
    by rewrite Claims.transition_wait.
Qed.

(** The first frame of [g] at least [holdTime] after the first one, and at
    least [debounce] after time 0 (the initial [lastTime]), commits [g]. *)
Lemma unanimous_commit (default g : C) (t0 t : Z) (ts : list Z) :
  g <> default ->
  Forall (fun t' => t' - t0 < CONFIG.transitions.holdTime) ts ->
  CONFIG.transitions.holdTime <= t - t0 ->
  CONFIG.transitions.debounce <= t ->
  after default (((t0, Some g) :: ((fun t' => (t', Some g)) <$> ts)) ++ [(t, Some g)]) =
    {| history := replicate (S (S (length ts)) `min` 10) g; lastTime := t;
       current := g; holdStartTime := t0; pending := None |}.
Proof.
  intros Hg Hts Hhold Hdeb.
  rewrite after_snoc, (unanimous_wait default g t0 ts Hg Hts). unfold advance. cbn [fst snd].
  assert (Hpush : pushHistory g (replicate (S (length ts) `min` 10) g)
                  = replicate (S (S (length ts)) `min` 10) g).
  { rewrite pushHistory_replicate by lia. f_equal. lia. }
  assert (Hvote : smoothed (replicate (S (S (length ts)) `min` 10) g) = Some g).
  { destruct (S (S (length ts)) `min` 10)%nat as [|k] eqn:Hk; [lia|].
    apply smoothed_replicate. }
  erewrite Claims.stabilize_step; [|exact Hpush|exact Hvote].
  unfold transition. cbn.
  rewrite decide_True by done. rewrite decide_False by (by intros []).
  destruct (Z.leb_spec CONFIG.transitions.holdTime (t - t0)); [|lia].
  destruct (Z.leb_spec CONFIG.transitions.debounce (t - 0)); [done|lia].
Qed.

(** Calls that all fall in a window shorter than [holdTime] never switch. *)
Lemma burst_no_switch (default : C) (events : list (Z * option C)) (lo : Z) :
  Forall (fun e => lo <= fst e < lo + CONFIG.transitions.holdTime) events ->
  forall i, current (after default (take i events)) = default.
Proof.
  intros Hwin i. induction i as [|i IH]; [done|].
  destruct (events !! i) as [e|] eqn:He.
  - destruct (decide (current (after default (take (S i) events))
                      = current (after default (take i events)))) as [Heq|Hne].
    { by rewrite Heq. }
    destruct (hold_respected default events i (fst e)) as (j & nowj & Hj & Hnj & _ & _ & _ & Hh).
    { by rewrite list_lookup_fmap, He. }
    { exact Hne. }
    rewrite list_lookup_fmap in Hnj.
    destruct (events !! j) as [ej|] eqn:Hej; [|done]. cbn in Hnj. injection Hnj as <-.
    rewrite Forall_lookup in Hwin.
    pose proof (Hwin _ _ He). pose proof (Hwin _ _ Hej). lia.
  - apply lookup_ge_None in He.
    rewrite take_ge by lia. rewrite take_ge in IH by lia. done.
Qed.

End SteadyFacts.

(** ** Further properties of the detectors *)

Module Extras.
Import Stabilizer Window Samples.

Lemma omap_event_expression (calls : list ExpressionDetector.call) :
  omap snd (ExpressionDetector.event <$> calls) = expressionRaws calls.
Proof.
  unfold expressionRaws. induction calls as [|c calls IH]; [done|].
  cbn. rewrite IH. done.
Qed.

Lemma raws_take_expression (calls : list ExpressionDetector.call) (i : nat) :
  omap snd (take i (ExpressionDetector.event <$> calls)) = expressionRaws (take i calls).
Proof. by rewrite <- fmap_take, omap_event_expression. Qed.

Lemma event_long_expression now landmarks :
  (468 <= length landmarks)%nat ->
  ExpressionDetector.event (now, landmarks)
  = (now, Some (fst (ExpressionDetector.classify landmarks))).
Proof.
  intros Hlen. unfold ExpressionDetector.event. cbn [fst snd].
  by destruct (Nat.ltb_spec (length landmarks) 468); [lia|].
Qed.

Lemma events_same_expression landmarks (ts : list Z) :
  (468 <= length landmarks)%nat ->
  ExpressionDetector.event <$> ((fun t => (t, landmarks)) <$> ts)
  = (fun t => (t, Some (fst (ExpressionDetector.classify landmarks)))) <$> ts.
Proof.
  intros Hlen. rewrite <- list_fmap_compose. apply list_fmap_ext.
  intros i t _. cbn. by apply event_long_expression.
Qed.

Lemma results_default_expression (calls : list ExpressionDetector.call) (st : ExpressionDetector.state) :
  (forall i, current (ExpressionDetector.stateAfter (take i calls) st) = neutral) ->
  Forall (fun r => ExpressionDetector.expression r = neutral) (ExpressionDetector.results calls st).
Proof.
  revert st. induction calls as [|[now landmarks] calls IH]; intros st Hcur.
  { constructor. }
  cbn [ExpressionDetector.results]. constructor.
  - specialize (Hcur 1%nat). cbn in Hcur. unfold ExpressionDetector.step in *. cbn in *.
    unfold ExpressionDetector.analyze in *.
    destruct (Nat.ltb_spec (length landmarks) 468).
    + by rewrite ExpressionFacts.analyzeWith_short_expression.
    + rewrite ExpressionFacts.analyzeWith_long_expression in * by done. done.
  - apply IH. intros i. apply (Hcur (S i)).
Qed.

Lemma omap_event_gesture (calls : list GestureDetector.call) :
  omap snd (GestureDetector.event <$> calls) = gestureRaws calls.
Proof.
  unfold gestureRaws. induction calls as [|c calls IH]; [done|].
  cbn. rewrite IH. done.
Qed.

Lemma raws_take_gesture (calls : list GestureDetector.call) (i : nat) :
  omap snd (take i (GestureDetector.event <$> calls)) = gestureRaws (take i calls).
Proof. by rewrite <- fmap_take, omap_event_gesture. Qed.

Lemma event_long_gesture now landmarks :
  (21 <= length landmarks)%nat ->
  GestureDetector.event (now, landmarks)
  = (now, Some (fst (GestureDetector.classify landmarks))).
Proof.
  intros Hlen. unfold GestureDetector.event. cbn [fst snd].
  by destruct (Nat.ltb_spec (length landmarks) 21); [lia|].
Qed.

Lemma events_same_gesture landmarks (ts : list Z) :
  (21 <= length landmarks)%nat ->
  GestureDetector.event <$> ((fun t => (t, landmarks)) <$> ts)
  = (fun t => (t, Some (fst (GestureDetector.classify landmarks)))) <$> ts.
Proof.
  intros Hlen. rewrite <- list_fmap_compose. apply list_fmap_ext.
  intros i t _. cbn. by apply event_long_gesture.
Qed.

Lemma results_default_gesture (calls : list GestureDetector.call) (st : GestureDetector.state) :
  (forall i, current (GestureDetector.stateAfter (take i calls) st) = none) ->
  Forall (fun r => GestureDetector.gesture r = none) (GestureDetector.results calls st).
Proof.
  revert st. induction calls as [|[now landmarks] calls IH]; intros st Hcur.
  { constructor. }
  cbn [GestureDetector.results]. constructor.
  - specialize (Hcur 1%nat). cbn in Hcur. unfold GestureDetector.step in *. cbn in *.
    unfold GestureDetector.analyze in *.
    destruct (Nat.ltb_spec (length landmarks) 21).
    + by rewrite GestureFacts.analyzeWith_short_gesture.
    + rewrite GestureFacts.analyzeWith_long_gesture in * by done. done.
  - apply IH. intros i. apply (Hcur (S i)).
Qed.

(** X1: the vote over a history that is not empty is a category of the
    history with the largest number of occurrences; among the categories with
    that number it is the one that occurs first in the history. *)
Theorem vote_is_plurality {C : Type} `{EqDecision C} (h : list C) :
  h <> [] ->
  exists g, smoothed h = Some g /\ g ∈ h /\
    (forall g', (occurrences g' h <= occurrences g h)%nat) /\
    (forall g', g' <> g -> occurrences g' h = occurrences g h ->
       exists h1 h2, h = h1 ++ g :: h2 /\ g' ∉ h1).
Proof.
  intros Hne. destruct (smoothed_is_Some h Hne) as [g Hg].
  exists g. split; [done|]. by apply smoothed_plurality.
Qed.

Lemma vote_is_plurality_witness :
  smoothed [peace; fist; fist; peace] = Some peace /\
  exists g, smoothed [peace; fist; fist; peace] = Some g /\
    g ∈ [peace; fist; fist; peace] /\
    (forall g', (occurrences g' [peace; fist; fist; peace]
                 <= occurrences g [peace; fist; fist; peace])%nat) /\
    (forall g', g' <> g ->
       occurrences g' [peace; fist; fist; peace]
       = occurrences g [peace; fist; fist; peace] ->
       exists h1 h2, [peace; fist; fist; peace] = h1 ++ g :: h2 /\ g' ∉ h1).
Proof.
  split; [by vm_compute|].
  apply (vote_is_plurality [peace; fist; fist; peace]). discriminate.
Defined.

(** X2: after any calls on a new detector the history is the last
    [historyLength] raw categories of the calls that passed the length test,
    oldest first; it never holds more than [historyLength] entries. *)
Theorem history_is_window :
  (forall (calls : list ExpressionDetector.call) (i : nat),
     history (ExpressionDetector.stateAt calls i) = lastWindow (expressionRaws (take i calls)) /\
     (length (history (ExpressionDetector.stateAt calls i))
      <= CONFIG.transitions.historyLength)%nat) /\
  (forall (calls : list GestureDetector.call) (i : nat),
     history (GestureDetector.stateAt calls i) = lastWindow (gestureRaws (take i calls)) /\
     (length (history (GestureDetector.stateAt calls i))
      <= CONFIG.transitions.historyLength)%nat).
Proof.
  split.
  - intros calls i.
    rewrite ExpressionFacts.stateAt_after_expression, history_after, raws_take_expression.
    split; [done|]. apply length_lastWindow.
  - intros calls i.
    rewrite GestureFacts.stateAt_after_gesture, history_after, raws_take_gesture.
    split; [done|]. apply length_lastWindow.
Qed.

(** X3: after any calls on a new detector, either no call has passed the
    length test and the detector is as new, or the vote over the history is
    [current] and nothing is pending, or the vote is the pending candidate,
    which differs from [current]. *)
Theorem vote_pending_coherence :
  (forall (calls : list ExpressionDetector.call) (i : nat),
     (expressionRaws (take i calls) = [] /\
      ExpressionDetector.stateAt calls i = ExpressionDetector.fresh) \/
     (exists v, smoothed (history (ExpressionDetector.stateAt calls i)) = Some v /\
        ((pending (ExpressionDetector.stateAt calls i) = None /\
          v = current (ExpressionDetector.stateAt calls i)) \/
         (pending (ExpressionDetector.stateAt calls i) = Some v /\
          v <> current (ExpressionDetector.stateAt calls i))))) /\
  (forall (calls : list GestureDetector.call) (i : nat),
     (gestureRaws (take i calls) = [] /\
      GestureDetector.stateAt calls i = GestureDetector.fresh) \/
     (exists v, smoothed (history (GestureDetector.stateAt calls i)) = Some v /\
        ((pending (GestureDetector.stateAt calls i) = None /\
          v = current (GestureDetector.stateAt calls i)) \/
         (pending (GestureDetector.stateAt calls i) = Some v /\
          v <> current (GestureDetector.stateAt calls i))))).
Proof.
  split.
  - intros calls i.
    rewrite ExpressionFacts.stateAt_after_expression, <- raws_take_expression.
    apply vote_coherent.
  - intros calls i.
    rewrite GestureFacts.stateAt_after_gesture, <- raws_take_gesture.
    apply vote_coherent.
Qed.

(** X4: [current] is the default category or the raw category of one of
    the calls made so far. *)
Theorem current_was_classified :
  (forall (calls : list ExpressionDetector.call) (i : nat),
     current (ExpressionDetector.stateAt calls i) = neutral \/
     current (ExpressionDetector.stateAt calls i) ∈ expressionRaws (take i calls)) /\
  (forall (calls : list GestureDetector.call) (i : nat),
     current (GestureDetector.stateAt calls i) = none \/
     current (GestureDetector.stateAt calls i) ∈ gestureRaws (take i calls)).
Proof.
  split.
  - intros calls i.
    rewrite ExpressionFacts.stateAt_after_expression, <- raws_take_expression.
    apply current_provenance.
  - intros calls i.
    rewrite GestureFacts.stateAt_after_gesture, <- raws_take_gesture.
    apply current_provenance.
Qed.

(** X5: the same landmark set, with raw category [g] other than the
    default, analysed by a new detector at [t0], at times [ts] less than
    [holdTime] after [t0], and then at [t] at least [holdTime] after [t0]
    (and at least [debounce] after time 0): [current] is the default through
    all calls but the last, and the last commits [g]. *)
Theorem unanimous_frames_commit :
  (forall (t0 t : Z) (ts : list Z) (landmarks : list Landmark) (g : ExpressionType),
     (468 <= length landmarks)%nat ->
     fst (ExpressionDetector.classify landmarks) = g -> g <> neutral ->
     Forall (fun t' => t' - t0 < CONFIG.transitions.holdTime) ts ->
     CONFIG.transitions.holdTime <= t - t0 ->
     CONFIG.transitions.debounce <= t ->
     let calls := (t0, landmarks) :: ((fun t' => (t', landmarks)) <$> ts)
                  ++ [(t, landmarks)] in
     (forall i, (i <= S (length ts))%nat ->
        current (ExpressionDetector.stateAt calls i) = neutral) /\
     ExpressionDetector.stateAt calls (S (S (length ts))) =
       {| history := replicate (S (S (length ts)) `min` 10) g; lastTime := t;
          current := g; holdStartTime := t0; pending := None |}) /\
  (forall (t0 t : Z) (ts : list Z) (landmarks : list Landmark) (g : GestureType),
     (21 <= length landmarks)%nat ->
     fst (GestureDetector.classify landmarks) = g -> g <> none ->
     Forall (fun t' => t' - t0 < CONFIG.transitions.holdTime) ts ->
     CONFIG.transitions.holdTime <= t - t0 ->
     CONFIG.transitions.debounce <= t ->
     let calls := (t0, landmarks) :: ((fun t' => (t', landmarks)) <$> ts)
                  ++ [(t, landmarks)] in
     (forall i, (i <= S (length ts))%nat ->
        current (GestureDetector.stateAt calls i) = none) /\
     GestureDetector.stateAt calls (S (S (length ts))) =
       {| history := replicate (S (S (length ts)) `min` 10) g; lastTime := t;
          current := g; holdStartTime := t0; pending := None |}).
Proof.
  split.
  - intros t0 t ts landmarks g Hlen Hg Hne Hts Hhold Hdeb. split.
    + intros [|i] Hi; [done|].
      rewrite ExpressionFacts.stateAt_after_expression, <- fmap_take.
      cbn [take]. rewrite take_app_le by (rewrite length_fmap; lia).
      rewrite <- fmap_take, fmap_cons, event_long_expression, events_same_expression, Hg by done.
      rewrite unanimous_wait; [done|done|]. by apply Forall_take.
    + rewrite ExpressionFacts.stateAt_after_expression.
      rewrite take_ge by (rewrite length_fmap; cbn; rewrite length_app, length_fmap; cbn; lia).
      rewrite fmap_cons, fmap_app, list_fmap_singleton.
      rewrite !event_long_expression, events_same_expression, Hg by done.
      rewrite app_comm_cons. by apply unanimous_commit.
  - intros t0 t ts landmarks g Hlen Hg Hne Hts Hhold Hdeb. split.
    + intros [|i] Hi; [done|].
      rewrite GestureFacts.stateAt_after_gesture, <- fmap_take.
      cbn [take]. rewrite take_app_le by (rewrite length_fmap; lia).
      rewrite <- fmap_take, fmap_cons, event_long_gesture, events_same_gesture, Hg by done.
      rewrite unanimous_wait; [done|done|]. by apply Forall_take.
    + rewrite GestureFacts.stateAt_after_gesture.
      rewrite take_ge by (rewrite length_fmap; cbn; rewrite length_app, length_fmap; cbn; lia).
      rewrite fmap_cons, fmap_app, list_fmap_singleton.
      rewrite !event_long_gesture, events_same_gesture, Hg by done.
      rewrite app_comm_cons. by apply unanimous_commit.
Qed.

Lemma unanimous_frames_commit_witness :
  ExpressionDetector.stateAt
    ((someTime, base 478)
     :: ((fun t' => (t', base 478))
         <$> ((fun k => someTime + 33 * Z.of_nat k) <$> seq 1 9))
     ++ [(someTime + 330, base 478)]) 11 =
    {| history := replicate 10 glare; lastTime := someTime + 330;
       current := glare; holdStartTime := someTime; pending := None |} /\
  GestureDetector.stateAt
    ((someTime, waveHand)
     :: ((fun t' => (t', waveHand))
         <$> ((fun k => someTime + 33 * Z.of_nat k) <$> seq 1 9))
     ++ [(someTime + 330, waveHand)]) 11 =
    {| history := replicate 10 wave; lastTime := someTime + 330;
       current := wave; holdStartTime := someTime; pending := None |}.
Proof.
  split.
  - refine (proj2 (proj1 unanimous_frames_commit someTime (someTime + 330)
                     ((fun k => someTime + 33 * Z.of_nat k) <$> seq 1 9)
                     (base 478) glare _ _ _ _ _ _)).
    + vm_compute. lia.
    + by vm_compute.
    + discriminate.
    + apply (bool_decide_unpack _). by vm_compute.
    + by vm_compute.
    + by vm_compute.
  - refine (proj2 (proj2 unanimous_frames_commit someTime (someTime + 330)
                     ((fun k => someTime + 33 * Z.of_nat k) <$> seq 1 9)
                     waveHand wave _ _ _ _ _ _)).
    + vm_compute. lia.
    + by vm_compute.
    + discriminate.
    + apply (bool_decide_unpack _). by vm_compute.
    + by vm_compute.
    + by vm_compute.
Defined.

(** X6: calls on a new detector whose times all lie in a window shorter
    than [holdTime] never change [current], and all return the default
    category, whatever the landmark sets are. *)
Theorem burst_never_switches :
  (forall (calls : list ExpressionDetector.call) (lo : Z),
     Forall (fun c => lo <= fst c < lo + CONFIG.transitions.holdTime) calls ->
     (forall i, current (ExpressionDetector.stateAt calls i) = neutral) /\
     Forall (fun r => ExpressionDetector.expression r = neutral)
            (ExpressionDetector.results calls ExpressionDetector.fresh)) /\
  (forall (calls : list GestureDetector.call) (lo : Z),
     Forall (fun c => lo <= fst c < lo + CONFIG.transitions.holdTime) calls ->
     (forall i, current (GestureDetector.stateAt calls i) = none) /\
     Forall (fun r => GestureDetector.gesture r = none)
            (GestureDetector.results calls GestureDetector.fresh)).
Proof.
  split.
  - intros calls lo Hwin.
    assert (Hcur : forall i, current (ExpressionDetector.stateAt calls i) = neutral).
    { intros i. rewrite ExpressionFacts.stateAt_after_expression.
      apply (burst_no_switch _ _ lo). apply Forall_fmap.
      eapply Forall_impl; [exact Hwin|]. by intros [now landmarks]. }
    split; [done|]. by apply results_default_expression.
  - intros calls lo Hwin.
    assert (Hcur : forall i, current (GestureDetector.stateAt calls i) = none).
    { intros i. rewrite GestureFacts.stateAt_after_gesture.
      apply (burst_no_switch _ _ lo). apply Forall_fmap.
      eapply Forall_impl; [exact Hwin|]. by intros [now landmarks]. }
    split; [done|]. by apply results_default_gesture.
Qed.

Lemma burst_never_switches_witness :
  Forall (fun r => ExpressionDetector.expression r = neutral)
    (ExpressionDetector.results
       (frames someTime 33 (alternate 9 (base 478) disgustFace))
       ExpressionDetector.fresh) /\
  Forall (fun r => GestureDetector.gesture r = none)
    (GestureDetector.results
       (frames someTime 33 (alternate 9 fistHand waveHand))
       GestureDetector.fresh).
Proof.
  split.
  - apply (proj1 burst_never_switches _ someTime).
    apply (bool_decide_unpack _). by vm_compute.
  - apply (proj2 burst_never_switches _ someTime).
    apply (bool_decide_unpack _). by vm_compute.
Defined.

End Extras.

(** ** The gesture rules and the active type *)

Module GestureExtras.
Import Stabilizer Samples GestureDetector.

Lemma ruleOf_confidence_gesture g landmarks r :
  ruleOf g landmarks = Some r ->
  confidence r = 0.8%float \/ confidence r = 0.85%float \/ confidence r = 0.9%float.
Proof.
  destruct g; simpl;
    unfold detectMiddleFinger, detectThumbsUp, detectThumbsDown, detectPeace,
      detectOK, detectRockOn, detectPointing, detectWave, detectFist;
    intros Hr;
    repeat match type of Hr with
           | match ?a with _ => _ end = _ => destruct a; try discriminate
           | (if ?a then _ else _) = _ => destruct a; try discriminate
           end;
    inversion Hr; cbn; auto.
Qed.

(** The raw classification of a frame: no match, or a confidence of 0.8,
    0.85 or 0.9. *)
Lemma classify_confidence_gesture landmarks :
  (matching landmarks = [] /\ classify landmarks = (none, 0%float)) \/
  (matching landmarks <> [] /\
   (snd (classify landmarks) = 0.8%float \/ snd (classify landmarks) = 0.85%float \/
    snd (classify landmarks) = 0.9%float)).
Proof.
  destruct (matching landmarks) as [|g l] eqn:Hm.
  - left. split; [done|]. by apply GestureFacts.classify_none_gesture.
  - right. split; [done|].
    assert (Hg : g ∈ matching landmarks) by (rewrite Hm; left).
    apply list_elem_of_filter in Hg as [Hs Hin].
    apply list_elem_of_lookup in Hin as [i Hi].
    destruct (GestureFacts.classify_earliest_gesture _ landmarks i g Hi Hs)
      as (i0 & g0 & r & _ & _ & Hr & Hcl & _).
    unfold classify. rewrite GestureFacts.rules_by_priority_gesture, Hcl. cbn.
    by apply ruleOf_confidence_gesture in Hr.
Qed.

Lemma float_values_nonzero (c : float) :
  c = 0.8%float \/ c = 0.85%float \/ c = 0.9%float ->
  c <> 0%float /\ PrimFloat.ltb 0.5 c = true /\
  PrimFloat.leb 0.8 c = true /\ PrimFloat.leb c 1 = true.
Proof.
  intros [->|[->| ->]]; (split; [|by vm_compute]);
    intros H; apply (f_equal (PrimFloat.ltb 0)) in H; vm_compute in H; discriminate.
Qed.

(** X7: the confidence returned by [GestureDetector.analyze] is 0, 0.8, 0.85
    or 0.9, hence between 0 and 1; it is 0 exactly when the landmark set has
    fewer than 21 entries or no rule holds on it. *)
Theorem gesture_confidence_values now landmarks (st : state) :
  (confidence (fst (analyze now landmarks st)) = 0%float \/
   confidence (fst (analyze now landmarks st)) = 0.8%float \/
   confidence (fst (analyze now landmarks st)) = 0.85%float \/
   confidence (fst (analyze now landmarks st)) = 0.9%float) /\
  PrimFloat.leb 0 (confidence (fst (analyze now landmarks st))) = true /\
  PrimFloat.leb (confidence (fst (analyze now landmarks st))) 1 = true /\
  (confidence (fst (analyze now landmarks st)) = 0%float <->
   (length landmarks < 21)%nat \/ matching landmarks = []).
Proof.
  unfold analyze. destruct (Nat.ltb_spec (length landmarks) 21) as [Hlt|Hge].
  - rewrite GestureFacts.analyzeWith_short_gesture by done. cbn.
    split; [by left|]. split; [by vm_compute|]. split; [by vm_compute|].
    split; [by left|done].
  - rewrite GestureFacts.analyzeWith_long_gesture by done. cbn [fst confidence].
    fold classify.
    destruct (classify_confidence_gesture landmarks) as [[Hm Hc]|[Hm Hc]].
    + rewrite Hc. cbn. split; [by left|]. split; [by vm_compute|].
      split; [by vm_compute|]. split; [by right|done].
    + destruct (float_values_nonzero _ Hc) as (Hnz & _ & Hlo & Hhi).
      split; [by right|]. split.
      { destruct Hc as [->|[->| ->]]; by vm_compute. }
      split; [done|]. split; [done|]. intros [?|?]; [lia|done].
Qed.

Lemma isThumbUp_extended landmarks :
  isThumbUp landmarks = true -> isThumbExtended landmarks = true.
Proof.
  unfold isThumbUp.
  destruct (landmarks !! HAND_LANDMARKS.THUMB_TIP),
    (landmarks !! HAND_LANDMARKS.THUMB_MCP), (landmarks !! HAND_LANDMARKS.WRIST);
    try discriminate.
  by intros [_ ?]%andb_true_iff.
Qed.

Lemma isThumbDown_extended landmarks :
  isThumbDown landmarks = true -> isThumbExtended landmarks = true.
Proof.
  unfold isThumbDown.
  destruct (landmarks !! HAND_LANDMARKS.THUMB_TIP),
    (landmarks !! HAND_LANDMARKS.WRIST); try discriminate.
  by intros [_ ?]%andb_true_iff.
Qed.

Lemma detectOK_fingers landmarks :
  is_Some (detectOK landmarks) ->
  middle (getFingerStates landmarks) = true /\
  ring (getFingerStates landmarks) = true /\
  pinky (getFingerStates landmarks) = true.
Proof.
  unfold detectOK.
  destruct (landmarks !! HAND_LANDMARKS.THUMB_TIP) as [thumbTip|];
    [|by intros []].
  destruct (landmarks !! HAND_LANDMARKS.INDEX_TIP) as [indexTip|];
    [|by intros []].
  match goal with |- is_Some (if ?b then _ else _) -> _ =>
    destruct b eqn:Hb; [|by intros []] end.
  intros _. apply andb_true_iff in Hb as [Hb ?].
  apply andb_true_iff in Hb as [Hb ?]. apply andb_true_iff in Hb as [_ ?]. done.
Qed.

Lemma filter_cons_app {A : Type} (P : A -> Prop) `{forall a, Decision (P a)}
    (a : A) (l : list A) :
  filter P (a :: l) = (if decide (P a) then [a] else []) ++ filter P l.
Proof. rewrite filter_cons. by destruct (decide (P a)). Qed.

(** X8: on any hand at most two rules hold, and two only as [ok] with [wave]
    or as [thumbsUp] with [thumbsDown]; the finger states exclude every other
    pair of rules, so the order of the table decides nothing else. *)
Theorem gesture_rules_exclusive landmarks :
  matching landmarks = [] \/
  (exists g, matching landmarks = [g]) \/
  matching landmarks = [ok; wave] \/
  matching landmarks = [thumbsUp; thumbsDown].
Proof.
  pose proof (detectOK_fingers landmarks) as Hok.
  pose proof (isThumbUp_extended landmarks) as Hup.
  pose proof (isThumbDown_extended landmarks) as Hdown.
  change (isThumbExtended landmarks) with (thumb (getFingerStates landmarks))
    in Hup, Hdown.
  unfold matching, priority. rewrite !filter_cons_app, filter_nil. cbn [ruleOf].
  unfold detectMiddleFinger, detectThumbsUp, detectThumbsDown, detectPeace,
    detectRockOn, detectPointing, detectWave, detectFist.
  revert Hok Hup Hdown.
  generalize (detectOK landmarks) (isThumbUp landmarks) (isThumbDown landmarks)
    (thumb (getFingerStates landmarks)) (index (getFingerStates landmarks))
    (middle (getFingerStates landmarks)) (ring (getFingerStates landmarks))
    (pinky (getFingerStates landmarks)).
  intros k u d t i m r p Hok Hup Hdown. destruct k as [res|].
  - destruct Hok as (-> & -> & ->); [by eexists|]. clear Hup Hdown.
    destruct u, d, t, i; cbn; eauto.
  - clear Hok.
    destruct u, d, t, i, m, r, p;
      try (by specialize (Hup eq_refl)); try (by specialize (Hdown eq_refl));
      cbn; eauto.
Qed.

Lemma fst_analyze_gesture now landmarks (st : state) :
  ((length landmarks < 21)%nat /\
   gesture (fst (analyze now landmarks st)) = none) \/
  ((21 <= length landmarks)%nat /\
   gesture (fst (analyze now landmarks st)) = current (snd (analyze now landmarks st))).
Proof.
  unfold analyze. destruct (Nat.ltb_spec (length landmarks) 21) as [Hlt|Hge].
  - left. by rewrite GestureFacts.analyzeWith_short_gesture.
  - right. by rewrite GestureFacts.analyzeWith_long_gesture.
Qed.

(** X9: in a frame the active type is a gesture exactly when a hand was
    found, its landmark set has at least 21 entries, some rule holds on it in
    this frame, and the stabilised gesture after the call is not ['none'];
    that gesture is then the active type, with a confidence of at least 0.8.
    In every other case the active type and confidence are those of the
    expression detector. *)
Theorem gesture_takes_priority
    (nowFace nowHand : Z) (faceLandmarks handLandmarks : option (list (list Landmark)))
    (st : ExpressionDetector.state * GestureDetector.state) :
  let out := Detection.classifyFrame nowFace nowHand faceLandmarks handLandmarks st in
  let e := Detection.detectExpression nowFace faceLandmarks (fst st) in
  ((exists g, fst (fst out) = Detection.Gesture g) <->
   (exists landmarks rest,
      handLandmarks = Some (landmarks :: rest) /\
      (21 <= length landmarks)%nat /\ matching landmarks <> [] /\
      current (snd (snd out)) <> none)) /\
  (forall g, fst (fst out) = Detection.Gesture g ->
     g = current (snd (snd out)) /\ g <> none /\
     PrimFloat.leb 0.8 (snd (fst out)) = true) /\
  ((forall g, fst (fst out) <> Detection.Gesture g) ->
   fst out = (Detection.Expression (fst (fst e)), snd (fst e))).
Proof.
  cbv zeta. unfold Detection.classifyFrame, Detection.arbitrate. cbn [fst snd].
  destruct handLandmarks as [[|landmarks rest]|]; cbn [Detection.detectGesture fst snd].
  1, 3: rewrite bool_decide_false by (by intros []); cbn;
        split; [split; [by intros [g ?]|by intros (? & ? & ? & _)]|];
        split; [by intros g ?|done].
  pose proof (gesture_confidence_values nowHand landmarks (snd st)) as Hconf.
  pose proof (fst_analyze_gesture nowHand landmarks (snd st)) as Hres.
  set (result := analyze nowHand landmarks (snd st)) in *.
  destruct (decide (gesture (fst result) = none)) as [Hn|Hn].
  { rewrite bool_decide_false by (by intros []). cbn.
    split; [split; [by intros [g ?]|]|split; [by intros g ?|done]].
    intros (lm & rest' & [= <- <-] & Hlen & Hm & Hcur).
    destruct Hres as [[? _]|[_ Heq]]; [lia|congruence]. }
  destruct Hres as [[_ ?]|[Hlen Hcur]]; [done|].
  rewrite bool_decide_true by done. cbn [andb].
  destruct Hconf as (Hval & _ & _ & Hzero).
  destruct (decide (matching landmarks = [])) as [Hm|Hm].
  - assert (Hc : confidence (fst result) = 0%float) by (apply Hzero; by right).
    rewrite Hc. cbn.
    split; [split; [by intros [g ?]|]|split; [by intros g ?|done]].
    intros (lm & rest' & [= <- <-] & _ & Hm' & _). done.
  - destruct Hval as [Hc|Hc]; [apply Hzero in Hc as [?|?]; [lia|done]|].
    destruct (float_values_nonzero _ Hc) as (_ & Hgt & Hlo & _).
    unfold JS.gt. rewrite Hgt. cbn.
    split; [split|split].
    + intros _. exists landmarks, rest. repeat split; try done. congruence.
    + intros _. by eexists.
    + intros g [= <-]. repeat split; try done. 
    + intros Hno. by destruct (Hno (gesture (fst result))).
Qed.

End GestureExtras.

(** ** Further properties of the meme pool *)

Module MemePoolExtras.
Import MemePool MemePoolFacts.
#[local] Open Scope nat_scope.

Lemma getMemeCount_length type st :
  getMemeCount type st = length (default [] (memePool st !! type)).
Proof. unfold getMemeCount. by destruct (memePool st !! type). Qed.

Lemma getMemeCount_zero type st :
  getMemeCount type st = 0 <-> default [] (memePool st !! type) = [].
Proof.
  rewrite getMemeCount_length. split; [|by intros ->].
  by destruct (default [] (memePool st !! type)).
Qed.

(** The total bounds every list and is positive only if some list is not
    empty. *)
Lemma total_spec (m : gmap string (list string)) :
  (forall k arr, m !! k = Some arr ->
     length arr <= map_fold (fun _ arr sum => sum + length arr) 0 m) /\
  (0 < map_fold (fun (_ : string) (arr : list string) sum => sum + length arr) 0 m ->
   exists k arr, m !! k = Some arr /\ arr <> []).
Proof.
  apply (map_fold_weak_ind
           (fun sum (m : gmap string (list string)) =>
              (forall k arr, m !! k = Some arr -> length arr <= sum) /\
              (0 < sum -> exists k arr, m !! k = Some arr /\ arr <> []))).
  - split; [by intros k arr Hk|lia].
  - intros i x m' r Hi [Hle Hpos]. split.
    + intros k arr Hk. destruct (decide (i = k)) as [->|Hne].
      * rewrite lookup_insert_eq in Hk. injection Hk as ->. lia.
      * rewrite lookup_insert_ne in Hk by done. specialize (Hle k arr Hk). lia.
    + intros Hsum. destruct x as [|a x].
      * cbn in Hsum. destruct Hpos as (k & arr & Hk & Harr); [lia|].
        exists k, arr. split; [|done].
        rewrite lookup_insert_ne; [done|]. intros ->. congruence.
      * exists i, (a :: x). by rewrite lookup_insert_eq.
Qed.

(** X10: [getRandomMeme] never changes [memePool]; it returns [null]
    exactly when the list of the type and the list of ["neutral"] are both
    empty; an asset it returns is from the list of the type when that list is
    not empty, and from the list of ["neutral"] otherwise. *)
Theorem selection_source (r : nat) (type : string) (st : store) :
  memePool (snd (getRandomMeme r type st)) = memePool st /\
  (fst (getRandomMeme r type st) = None <->
   getMemeCount type st = 0 /\ getMemeCount "neutral" st = 0) /\
  (forall m, fst (getRandomMeme r type st) = Some m ->
     if decide (getMemeCount type st = 0)
     then m ∈ default [] (memePool st !! "neutral")
     else m ∈ default [] (memePool st !! type)).
Proof.
  split; [apply getRandomMeme_pool|].
  destruct (decide (getMemeCount type st = 0)) as [Hz|Hnz].
  - apply getMemeCount_zero in Hz as Hempty.
    rewrite getRandomMeme_miss by done. cbn. rewrite !getMemeCount_zero.
    destruct (default [] (memePool st !! "neutral")) as [|a np] eqn:Hnp.
    + split; [done|]. by intros m.
    + destruct (pick_is_Some r (a :: np)) as (m & Hm & Hin); [done|].
      rewrite Hm. split; [split; [done|by intros [_ ?]]|].
      by intros m' [= <-].
  - assert (Hne : default [] (memePool st !! type) <> []).
    { by rewrite <- getMemeCount_zero. }
    destruct (memePool st !! type) as [assets|] eqn:Hpool; [|done]. cbn in Hne.
    destruct (getRandomMeme_hit r type st assets Hpool Hne) as (m & Hin & _ & ->).
    cbn. rewrite !getMemeCount_zero, Hpool. cbn. split; [split; [done|by intros [? _]]|]. by intros m' [= <-].
Qed.

(** X11: [isPoolReady()] holds exactly when some type has a positive
    [getMemeCount]; every count is at most [getTotalMemeCount()]; and while
    the pool is not ready every call of [getRandomMeme] returns [null] and
    changes nothing. *)
Theorem pool_ready_counts (st : store) :
  (isPoolReady st = true <-> exists type, 0 < getMemeCount type st) /\
  (forall type, getMemeCount type st <= getTotalMemeCount st) /\
  (isPoolReady st = false ->
   forall r type, getRandomMeme r type st = (None, st)).
Proof.
  destruct (total_spec (memePool st)) as [Hle Hpos].
  assert (Hcount : forall type, getMemeCount type st <= getTotalMemeCount st).
  { intros type. rewrite getMemeCount_length. unfold getTotalMemeCount.
    destruct (memePool st !! type) as [arr|] eqn:Hk; cbn; [by apply (Hle type)|lia]. }
  split; [|split; [done|]].
  - unfold isPoolReady. rewrite Nat.ltb_lt. split.
    + intros Hsum. destruct (Hpos Hsum) as (k & arr & Hk & Harr).
      exists k. rewrite getMemeCount_length, Hk. cbn. destruct arr; [done|cbn; lia].
    + intros [type Hty]. specialize (Hcount type). lia.
  - unfold isPoolReady. rewrite Nat.ltb_ge. intros Hzero r type.
    assert (Hall : forall type, default [] (memePool st !! type) = []).
    { intros ty. apply getMemeCount_zero. specialize (Hcount ty). lia. }
    rewrite getRandomMeme_miss by done. by rewrite Hall.
Qed.

Lemma available_not_empty_lt (pool recent : list string) :
  length recent < size (list_to_set pool : gset string) ->
  filter (λ m, m ∉ recent) pool <> [].
Proof.
  intros Hsize Hnil.
  assert (Hsub : (list_to_set pool : gset string) ⊆ list_to_set recent).
  { intros a Ha. apply elem_of_list_to_set in Ha. apply elem_of_list_to_set.
    destruct (decide (a ∈ recent)) as [|Hn]; [done|].
    by destruct (filter_nil_not_elem_of _ _ a Hnil Hn). }
  apply subseteq_size in Hsub.
  pose proof (size_list_to_set_le recent). lia.
Qed.

Lemma run_first_picks c assets calls st prev :
  memePool st !! c = Some assets -> assets <> [] ->
  default [] (recentMemes st !! c) = last3 prev ->
  NoDup (take (size (list_to_set assets : gset string) `min` 4) prev) ->
  Forall (fun m => m ∈ assets) prev ->
  exists ids,
    resultsFor c (fst (run calls st)) = Some <$> ids /\
    NoDup (take (size (list_to_set assets : gset string) `min` 4) (prev ++ ids)) /\
    Forall (fun m => m ∈ assets) (prev ++ ids).
Proof.
  intros Hpool Hne. revert st prev Hpool.
  induction calls as [|[c' r] calls IH]; intros st prev Hpool Hrec Hnd Hin.
  { exists []. by rewrite app_nil_r. }
  rewrite run_cons. cbn [fst snd].
  destruct (decide (c' = c)) as [->|Hne'].
  - destruct (getRandomMeme_hit r c st assets Hpool Hne) as (m & Hm & Hfresh & Heq).
    rewrite Heq. cbn [fst snd].
    destruct (IH {| memePool := memePool st;
                    recentMemes :=
                      <[c := if (RECENT_HISTORY_SIZE
                                 <? length (default [] (recentMemes st !! c) ++ [m]))
                             then tail (default [] (recentMemes st !! c) ++ [m])
                             else default [] (recentMemes st !! c) ++ [m]]>
                        (recentMemes st) |} (prev ++ [m]))
      as (ids & Hres & Hnd' & Hin').
    + done.
    + cbn. rewrite lookup_insert_eq. cbn. rewrite Hrec. apply push_last3.
    + destruct (decide (length prev
                        < size (list_to_set assets : gset string) `min` 4))
        as [Hlt|Hge].
      * rewrite take_ge in Hnd by lia. rewrite take_ge by (rewrite length_app; cbn; lia).
        apply NoDup_app. split; [done|]. split; [|apply NoDup_singleton].
        intros a Ha ->%list_elem_of_singleton. revert Ha.
        replace prev with (last3 prev) at 1
          by (replace (length prev - 3) with 0 by lia; done).
        rewrite <- Hrec. apply Hfresh. apply available_not_empty_lt.
        rewrite Hrec, length_drop. lia.
      * by rewrite take_app_le by lia.
    + apply Forall_app. split; [done|]. by constructor.
    + exists (m :: ids). rewrite resultsFor_cons_same, Hres.
      rewrite <- app_assoc in Hnd', Hin'. done.
  - destruct (IH (snd (getRandomMeme r c' st)) prev) as (ids & Hres & Hnd' & Hin').
    + by rewrite getRandomMeme_pool.
    + by rewrite getRandomMeme_other.
    + done.
    + done.
    + exists ids. by rewrite resultsFor_cons_other.
Qed.

(** X12: for a category whose pool is not empty, every call for it returns
    an asset of its pool, and the first [min n 4] assets returned for it are
    pairwise distinct, where [n] is the number of distinct assets of the
    pool; so a pool of at most four assets without duplicates is shown once
    in full before any asset comes back. *)
Theorem first_picks_distinct
    (pool : gmap string (list string)) (c : string) (assets : list string)
    (calls : list (string * nat)) :
  pool !! c = Some assets -> assets <> [] ->
  exists ids,
    resultsFor c (fst (run calls (loaded pool))) = Some <$> ids /\
    Forall (fun m => m ∈ assets) ids /\
    NoDup (take (size (list_to_set assets : gset string) `min` 4) ids) /\
    (NoDup assets -> length assets <= 4 -> length assets <= length ids ->
     take (length assets) ids ≡ₚ assets).
Proof.
  intros Hpool Hne.
  destruct (run_first_picks c assets calls (loaded pool) [] Hpool Hne)
    as (ids & Hres & Hnd & Hin).
  - done.
  - rewrite take_nil. constructor.
  - constructor.
  - exists ids. cbn in Hnd, Hin. split; [done|]. split; [done|]. split; [done|].
    intros Hnda Hlen4 Hlen.
    rewrite size_list_to_set in Hnd by done.
    replace (length assets `min` 4) with (length assets) in Hnd by lia.
    apply submseteq_length_Permutation.
    + apply NoDup_submseteq; [done|]. intros a Ha.
      apply subseteq_take in Ha. rewrite Forall_forall in Hin. by apply Hin.
    + rewrite length_take. lia.
Qed.

Lemma first_picks_distinct_witness :
  exists ids,
    resultsFor "happy"
      (fst (run [("happy", 5); ("wave", 1); ("happy", 5)]
              (loaded (<["happy" := ["grin.png"; "laugh.png"]]> declaredPool))))
      = Some <$> ids /\
    Forall (fun m => m ∈ ["grin.png"; "laugh.png"]) ids /\
    NoDup (take (size (list_to_set ["grin.png"; "laugh.png"] : gset string) `min` 4) ids) /\
    (NoDup ["grin.png"; "laugh.png"] ->
     length ["grin.png"; "laugh.png"] <= 4 ->
     length ["grin.png"; "laugh.png"] <= length ids ->
     take (length ["grin.png"; "laugh.png"]) ids ≡ₚ ["grin.png"; "laugh.png"]).
Proof.
  apply (first_picks_distinct (<["happy" := ["grin.png"; "laugh.png"]]> declaredPool)).
  - by vm_compute.
  - discriminate.
Defined.

Lemma run_buffers (pool : gmap string (list string)) calls st (seen : list string) :
  memePool st = pool ->
  (forall c buf, recentMemes st !! c = Some buf ->
     buf <> [] /\ Forall (fun m => m ∈ default [] (pool !! c)) buf /\ c ∈ seen) ->
  forall c buf, recentMemes (snd (run calls st)) !! c = Some buf ->
    buf <> [] /\ Forall (fun m => m ∈ default [] (pool !! c)) buf /\
    c ∈ seen ++ (fst <$> calls).
Proof.
  revert st seen. induction calls as [|[c' r] calls IH]; intros st seen Hpool Hinv.
  { intros c buf Hc. rewrite app_nil_r. by apply Hinv. }
  rewrite run_cons. cbn [fst snd]. intros c buf Hc.
  rewrite fmap_cons, cons_middle, app_assoc. cbn [fst].
  revert c buf Hc. apply IH; [by rewrite getRandomMeme_pool|].
  intros c buf Hc.
  destruct (decide (c' = c)) as [->|Hne].
  - destruct (default [] (memePool st !! c)) as [|a assets] eqn:Hassets.
    + rewrite getRandomMeme_miss in Hc by done. cbn in Hc.
      destruct (Hinv c buf Hc) as (? & ? & ?).
      repeat split; try done. apply elem_of_app. by left.
    + destruct (memePool st !! c) as [assets'|] eqn:Hl; [|done].
      cbn in Hassets. subst assets'.
      destruct (getRandomMeme_hit r c st (a :: assets) Hl) as (m & Hm & _ & Heq);
        [done|].
      rewrite Heq in Hc. cbn in Hc. rewrite lookup_insert_eq in Hc.
      injection Hc as <-.
      assert (Hold : Forall (fun m => m ∈ a :: assets)
                       (default [] (recentMemes st !! c) ++ [m])).
      { apply Forall_app. split; [|by constructor].
        destruct (recentMemes st !! c) as [old|] eqn:Hold; [|constructor].
        destruct (Hinv c old Hold) as (_ & Hin & _).
        by rewrite <- Hpool, Hl in Hin. }
      rewrite <- Hpool, Hl. cbn [default].
      split; [|split; [|apply elem_of_app; right; left]].
      * destruct (default [] (recentMemes st !! c) ++ [m]) as [|x [|y l]] eqn:Hbuf.
        -- by destruct (default [] (recentMemes st !! c)).
        -- done.
        -- match goal with |- (if ?b then _ else _) <> _ => by destruct b end.
      * match goal with |- Forall _ (if ?b then _ else _) => destruct b end; [|done].
        destruct (default [] (recentMemes st !! c) ++ [m]) as [|x l]; [done|].
        by inversion Hold.
  - rewrite getRandomMeme_other in Hc by done.
    destruct (Hinv c buf Hc) as (? & ? & ?).
    repeat split; try done. apply elem_of_app. by left.
Qed.

(** X13: in any state reached from the loaded pool, a buffer exists only
    for a type that was requested, is not empty, and holds only assets of
    that type's own list (never of ["neutral"] through the fallback). *)
Theorem buffers_hold_pool_assets
    (pool : gmap string (list string)) (calls : list (string * nat))
    (c : string) (buf : list string) :
  recentMemes (snd (run calls (loaded pool))) !! c = Some buf ->
  buf <> [] /\
  Forall (fun m => m ∈ default [] (pool !! c)) buf /\
  c ∈ (fst <$> calls).
Proof.
  intros Hc.
  apply (run_buffers pool calls (loaded pool) [] eq_refl); [|done].
  intros c' buf' Hc'. cbn in Hc'. by rewrite lookup_empty in Hc'.
Qed.

Lemma buffers_hold_pool_assets_witness :
  ["c.png"] <> [] /\
  Forall (fun m => m ∈ default [] (Samples.fiveHappy !! "happy")) ["c.png"] /\
  "happy" ∈ (fst <$> [("wave", 2); ("happy", 7)]).
Proof.
  apply (buffers_hold_pool_assets Samples.fiveHappy [("wave", 2); ("happy", 7)]).
  by vm_compute.
Defined.

End MemePoolExtras.
